(** * go-temp: the RabbitMQ publishing client and its fan-out loop

    A shallow embedding of package [rabbitmq] (the [Client] with its
    [connect], [PublishJSON], [reconnectWithBackoff], [Close] and
    [LoadTLSConfig]) and of the parts of [main] that register the clients
    and publish a reading to each of them.

    The AMQP library, the JSON encoder, the clock and the certificate files
    are outside the repository.  They are taken as interfaces: a broker is
    any deterministic machine answering the library calls, and every call
    is recorded, with its answer, in a chronological trace. *)

From Stdlib Require Import ZArith List String Bool Lia Arith.
From Stdlib Require Import Ascii DecimalString DecimalNat.
Import ListNotations.
Local Open Scope string_scope.
Local Open Scope list_scope.
Local Open Scope Z_scope.

(** ** Go values used by the client *)

Module golang.

Definition bytes := list Byte.byte.

(** Go's [error] values.  [ErrClosed] is the sentinel [amqp.ErrClosed];
    [ErrorNew] is an error that wraps nothing ([errors.New],
    [fmt.Errorf] without [%w], a library error); [Errorf_w p e] is
    [fmt.Errorf(p + ": %w", e)], whose [Unwrap] gives [e]. *)
Inductive error : Type :=
| ErrClosed
| ErrorNew (msg : string)
| Errorf_w (prefix : string) (e : error).

Definition error_eq_dec (a b : error) : {a = b} + {a <> b}.
Proof. decide equality; apply string_dec. Defined.

(** [errors.Is(err, target)]: [err] or an error of its [Unwrap] chain is
    [target]. *)
Fixpoint errors_Is (err target : error) : bool :=
  if error_eq_dec err target then true
  else match err with
       | Errorf_w _ e => errors_Is e target
       | _ => false
       end.

(** A Go pair [(value, error)] of a call that answers one or the other. *)
Inductive result (A : Type) : Type :=
| Ok (a : A)
| Err (e : error).
Arguments Ok {A} a.
Arguments Err {A} e.

(** [int64] arithmetic of [time.Duration] (nanoseconds). *)
Definition int64 (z : Z) : Z := (z + 2 ^ 63) mod 2 ^ 64 - 2 ^ 63.
Definition time_Second : Z := 1000000000.

(** [crypto/tls] and [crypto/x509] values, as far as the client sets them. *)
Definition Certificate := bytes.
Definition CertPool := list bytes.
Definition VersionTLS12 : Z := 0x0303.

Record tls_Config : Type := mkTLS {
  Certificates : list Certificate;
  RootCAs : option CertPool;
  MinVersion : Z
}.

End golang.
Import golang.

(** ** The AMQP library as an interface *)

Module amqp.

(** The client holds pointers to an [amqp.Connection] and to an
    [amqp.Channel]; a handle is the identity of the object pointed to. *)
Definition Connection := nat.
Definition Channel := nat.
Definition Table := option (list (string * string)).

Record Publishing : Type := mkPublishing {
  ContentType : string;
  Body : bytes
}.

(** What a broker (with the network and the clock in front of it) does on
    each library call, as a deterministic machine over its state [B]. *)
Class Broker (B : Type) : Type := {
  Dial : string -> B -> result Connection * B;
  DialTLS : string -> tls_Config -> B -> result Connection * B;
  Connection_Channel : Connection -> B -> result Channel * B;
  Channel_QueueDeclare :
    Channel -> string -> bool -> bool -> bool -> bool -> Table ->
    B -> option error * B;
  Channel_Publish :
    Channel -> string -> string -> bool -> bool -> Publishing ->
    B -> option error * B;
  Channel_Close : Channel -> B -> option error * B;
  Connection_Close : Connection -> B -> option error * B;
  time_Sleep : Z -> B -> B
}.

(** One entry of the trace per library call, with the answer it got. *)
Inductive event : Type :=
| EvDial (uri : string) (r : result Connection)
| EvDialTLS (uri : string) (cfg : tls_Config) (r : result Connection)
| EvChannel (conn : Connection) (r : result Channel)
| EvQueueDeclare (ch : Channel) (name : string)
    (durable autoDelete exclusive noWait : bool) (args : Table)
    (r : option error)
| EvPublish (ch : Channel) (exchange key : string)
    (mandatory immediate : bool) (msg : Publishing) (r : option error)
| EvChannelClose (ch : Channel) (r : option error)
| EvConnectionClose (conn : Connection) (r : option error)
| EvSleep (d : Z)
| EvLogPrintf (format : string) (name : option string) (err : error).

End amqp.
Import amqp.

(** [encoding/json]: [json.Marshal] is a function of the value. *)
Class Json (Payload : Type) : Type := {
  json_Marshal : Payload -> result bytes
}.

(** ** The world: broker state and the trace of calls so far *)

Section World.
Context {B : Type} `{Broker B}.

Record World : Type := mkWorld {
  broker : B;
  trace : list event
}.

Definition M (A : Type) : Type := World -> A * World.

Definition ret {A} (a : A) : M A := fun w => (a, w).

Definition bind {A C} (m : M A) (k : A -> M C) : M C :=
  fun w => let (a, w1) := m w in k a w1.

(** A library call: the broker answers and moves on, the trace grows. *)
Definition call {A} (f : B -> A * B) (ev : A -> event) : M A :=
  fun w =>
    let (r, b) := f (broker w) in
    (r, {| broker := b; trace := trace w ++ [ev r] |}).

Definition sleep (d : Z) : M unit :=
  fun w =>
    (tt, {| broker := time_Sleep d (broker w);
            trace := trace w ++ [EvSleep d] |}).

Definition logPrintf (format : string) (name : option string) (err : error)
  : M unit :=
  fun w =>
    (tt, {| broker := broker w;
            trace := trace w ++ [EvLogPrintf format name err] |}).

End World.

Arguments World B : clear implicits.
Arguments M B A : clear implicits.

Declare Scope go_scope.
Delimit Scope go_scope with go.
Notation "x <- c ;; k" := (bind c (fun x => k))
  (at level 100, c at next level, right associativity) : go_scope.
Notation "c ;;; k" := (bind c (fun _ => k))
  (at level 100, right associativity) : go_scope.

(** ** Package rabbitmq *)

Module rabbitmq.

Record Client : Type := mkClient {
  conn : option Connection;
  channel : option Channel;
  queue : string;
  uri : string;
  tlsCfg : option tls_Config
}.

(** How a call on a client ends: it returns, it panics on a nil
    pointer, or the recursion of the model was cut off. *)
Inductive outcome (B A : Type) : Type :=
| Returned (a : A) (w : World B)
| Panicked (w : World B)
| OutOfFuel.
Arguments Returned {B A} a w.
Arguments Panicked {B A} w.
Arguments OutOfFuel {B A}.

Section Client.
Context {B : Type} `{Broker B}.
Local Open Scope go_scope.

Definition set_handles (c : Client) (cn : Connection) (ch : Channel)
  : Client :=
  {| conn := Some cn; channel := Some ch;
     queue := queue c; uri := uri c; tlsCfg := tlsCfg c |}.

(** [Client.connect] *)
Definition connect (c : Client) : M B (option error * Client) :=
  r <- match tlsCfg c with
       | Some cfg => call (DialTLS (uri c) cfg) (EvDialTLS (uri c) cfg)
       | None => call (Dial (uri c)) (EvDial (uri c))
       end ;;
  match r with
  | Err err => ret (Some (Errorf_w "dial failed" err), c)
  | Ok cn =>
    r <- call (Connection_Channel cn) (EvChannel cn) ;;
    match r with
    | Err err => ret (Some (Errorf_w "channel failed" err), c)
    | Ok ch =>
      err <- call
               (Channel_QueueDeclare ch (queue c) true false false false
                  None)
               (EvQueueDeclare ch (queue c) true false false false None) ;;
      match err with
      | Some err => ret (Some (Errorf_w "queue declare failed" err), c)
      | None => ret (None, set_handles c cn ch)
      end
    end
  end.

(** [NewClient(uri, queue, tlsCfg)]: a client with nil handles, then
    [connect].  It answers [(nil, err)] or [(client, nil)]. *)
Definition NewClient (uri queue : string) (tlsCfg : option tls_Config)
  : M B (result Client) :=
  let client := {| conn := None; channel := None;
                   queue := queue; uri := uri; tlsCfg := tlsCfg |} in
  r <- connect client ;;
  match r with
  | (Some err, _) => ret (Err err)
  | (None, client) => ret (Ok client)
  end.

(** The loop of [reconnectWithBackoff], [todo] iterations from its end,
    with [retry] for the call [c.PublishJSON(payload)]. *)
Fixpoint reconnectLoop
    (retry : Client -> World B -> outcome B (option error * Client))
    (todo : nat) (backoff : Z) (c : Client) (w : World B)
  : outcome B (option error * Client) :=
  match todo with
  | O => Returned
           (Some (ErrorNew "unable to reconnect to RabbitMQ"), c) w
  | S todo' =>
    let (_, w1) := sleep backoff w in
    let '(err, c1, w2) := connect c w1 in
    match err with
    | None => retry c1 w2
    | Some _ => reconnectLoop retry todo' (int64 (backoff * 2)) c1 w2
    end
  end.

Section Publish.
Context {Payload : Type} `{Json Payload}.

(** The call [c.channel.Publish("", c.queue, false, false,
    amqp.Publishing{...})] on the channel [ch]. *)
Definition transmit (ch : Channel) (c : Client) (body : bytes)
  : M B (option error) :=
  let msg := {| ContentType := "application/json"; Body := body |} in
  call (Channel_Publish ch "" (queue c) false false msg)
       (EvPublish ch "" (queue c) false false msg).

(** [Client.PublishJSON], with [fuel] bounding how many times it may
    be entered again through [reconnectWithBackoff].  A method call
    on the nil channel of a client panics. *)
Fixpoint PublishJSON (fuel : nat) (payload : Payload) (c : Client)
    (w : World B) : outcome B (option error * Client) :=
  match fuel with
  | O => OutOfFuel
  | S fuel' =>
    match json_Marshal payload with
    | Err err => Returned (Some err, c) w
    | Ok body =>
      match channel c with
      | None => Panicked w
      | Some ch =>
        let (err, w1) := transmit ch c body w in
        match err with
        | Some e =>
          if errors_Is e ErrClosed
          then reconnectLoop (PublishJSON fuel' payload)
                             5 time_Second c w1
          else Returned (err, c) w1
        | None => Returned (err, c) w1
        end
      end
    end
  end.

(** [Client.reconnectWithBackoff]; its call of [PublishJSON] has
    [fuel] left. *)
Definition reconnectWithBackoff (fuel : nat) (payload : Payload)
    (c : Client) (w : World B) : outcome B (option error * Client) :=
  reconnectLoop (PublishJSON fuel payload) 5 time_Second c w.

End Publish.

(** [Client.Close]: both results are discarded. *)
Definition Close (c : Client) : M B (unit * Client) :=
  match channel c with
  | Some ch => call (Channel_Close ch) (EvChannelClose ch) ;;; ret tt
  | None => ret tt
  end ;;;
  match conn c with
  | Some cn => call (Connection_Close cn) (EvConnectionClose cn) ;;; ret tt
  | None => ret tt
  end ;;;
  ret (tt, c).

End Client.

(** The certificate files read by [LoadTLSConfig]. *)
Record Files : Type := mkFiles {
  tls_LoadX509KeyPair : string -> string -> result Certificate;
  os_ReadFile : string -> result bytes;
  AppendCertsFromPEM : CertPool -> bytes -> CertPool * bool
}.

Definition x509_NewCertPool : CertPool := [].

(** [LoadTLSConfig(useTLS, useMTLS)], a pair (config or nil, error or
    nil). *)
Definition LoadTLSConfig (fs : Files) (useTLS useMTLS : bool)
  : option tls_Config * option error :=
  if negb useTLS then (None, None)
  else
    let cfg := {| Certificates := []; RootCAs := None; MinVersion := 0 |} in
    let with_ca (cfg : tls_Config) :=
      match os_ReadFile fs "/etc/certs/ca.crt" with
      | Err err => (None, Some (Errorf_w "failed to read CA cert" err))
      | Ok caCert =>
        let (caPool, ok) := AppendCertsFromPEM fs x509_NewCertPool caCert in
        if negb ok then (None, Some (ErrorNew "failed to append CA cert"))
        else
          (Some {| Certificates := Certificates cfg;
                   RootCAs := Some caPool;
                   MinVersion := VersionTLS12 |}, None)
      end in
    if useMTLS then
      match tls_LoadX509KeyPair fs "/etc/certs/client.crt"
                                   "/etc/certs/client.key" with
      | Err err => (None, Some (Errorf_w "failed to load client certs" err))
      | Ok cert =>
        with_ca {| Certificates := [cert]; RootCAs := RootCAs cfg;
                   MinVersion := MinVersion cfg |}
      end
    else with_ca cfg.

End rabbitmq.
Import rabbitmq.

(** ** Package main: registering the clients, publishing a reading *)

Module main.

Record clientRef : Type := mkClientRef {
  name : string;
  client : Client
}.

(** How the start of [main] ends: [log.Fatal], or the loop is entered
    with the registered clients. *)
Inductive startup : Type :=
| Fatal (msg : string)
| Started (clients : list clientRef).

Section Main.
Context {B : Type} `{Broker B}.
Local Open Scope go_scope.

(** One of the two blocks [if uri != "" { NewClient ... }] of [main];
    they differ in the name and in the text of the warning. *)
Definition register (nm warning : string) (uri queue : string)
    (tlsCfg : option tls_Config) (clients : list clientRef)
  : M B (list clientRef) :=
  if String.eqb uri "" then ret clients
  else
    r <- NewClient uri queue tlsCfg ;;
    match r with
    | Err err => logPrintf warning None err ;;; ret clients
    | Ok cl => ret (clients ++ [{| name := nm; client := cl |}])
    end.

Definition registerClients (localURI remoteURI queue : string)
    (tlsCfg : option tls_Config) : M B (list clientRef) :=
  clients <- register "local" "Local RabbitMQ connection failed: %v"
               localURI queue tlsCfg [] ;;
  register "remote" "Remote RabbitMQ connection failed: %v"
    remoteURI queue tlsCfg clients.

(** The registration and the test [len(clients) == 0] after it. *)
Definition start (localURI remoteURI queue : string)
    (tlsCfg : option tls_Config) : M B startup :=
  clients <- registerClients localURI remoteURI queue tlsCfg ;;
  if Nat.eqb (List.length clients) 0
  then ret (Fatal "No RabbitMQ connections available")
  else ret (Started clients).

Section Tick.
Context {Payload : Type} `{Json Payload}.

(** [if err != nil { log.Printf("Failed to publish to %s: %v", ...) }] *)
Definition reportFailure (nm : string) (err : option error)
  : M B unit :=
  match err with
  | Some e => logPrintf "Failed to publish to %s: %v" (Some nm) e
  | None => ret tt
  end.

(** The loop [for _, c := range clients] of a tick.  Each client is
    an object of its own, so the list is given back with the clients
    as the calls left them. *)
Fixpoint publishAll (fuel : nat) (msg : Payload)
    (clients : list clientRef) (w : World B)
  : outcome B (list clientRef) :=
  match clients with
  | [] => Returned [] w
  | c :: rest =>
    match PublishJSON fuel msg (client c) w with
    | Returned (err, cl) w1 =>
      let (_, w2) := reportFailure (name c) err w1 in
      match publishAll fuel msg rest w2 with
      | Returned rest' w3 =>
        Returned ({| name := name c; client := cl |} :: rest') w3
      | Panicked w3 => Panicked w3
      | OutOfFuel => OutOfFuel
      end
    | Panicked w1 => Panicked w1
    | OutOfFuel => OutOfFuel
    end
  end.

End Tick.
End Main.
End main.
Import main.

(** ** Reading a trace *)

Module Trace.

(** The durations slept, in order. *)
Fixpoint sleeps (tr : list event) : list Z :=
  match tr with
  | [] => []
  | EvSleep d :: tr' => d :: sleeps tr'
  | _ :: tr' => sleeps tr'
  end.

(** The URIs dialled, in order: one per call of [connect]. *)
Fixpoint dials (tr : list event) : list string :=
  match tr with
  | [] => []
  | EvDial u _ :: tr' => u :: dials tr'
  | EvDialTLS u _ _ :: tr' => u :: dials tr'
  | _ :: tr' => dials tr'
  end.

(** The transmissions attempted, in order: channel, body and answer. *)
Fixpoint sends (tr : list event) : list (Channel * bytes * option error) :=
  match tr with
  | [] => []
  | EvPublish ch _ _ _ _ msg r :: tr' => (ch, Body msg, r) :: sends tr'
  | _ :: tr' => sends tr'
  end.

(** The handles released, in order. *)
Fixpoint closes (tr : list event) : list event :=
  match tr with
  | [] => []
  | EvChannelClose ch r :: tr' => EvChannelClose ch r :: closes tr'
  | EvConnectionClose cn r :: tr' => EvConnectionClose cn r :: closes tr'
  | _ :: tr' => closes tr'
  end.

(** The lines logged, in order. *)
Fixpoint logs (tr : list event) : list (string * option string * error) :=
  match tr with
  | [] => []
  | EvLogPrintf f n e :: tr' => (f, n, e) :: logs tr'
  | _ :: tr' => logs tr'
  end.

(** What a publisher is doing, step by step: it sleeps, it starts a
    connect, it attempts a transmission. *)
Inductive step : Type :=
| Sleep (d : Z)
| Connect
| Send.

Fixpoint steps (tr : list event) : list step :=
  match tr with
  | [] => []
  | EvSleep d :: tr' => Sleep d :: steps tr'
  | EvDial _ _ :: tr' => Connect :: steps tr'
  | EvDialTLS _ _ _ :: tr' => Connect :: steps tr'
  | EvPublish _ _ _ _ _ _ _ :: tr' => Send :: steps tr'
  | _ :: tr' => steps tr'
  end.

Definition seconds (n : Z) : Z := n * time_Second.

End Trace.
Import Trace.

(** ** Vocabulary of the statements *)

Section Vocabulary.
Context {B : Type} `{Broker B}.

(** The four ways [connect] can go, with the calls made in each. *)
Inductive connect_run (c : Client) (w : World B)
  : option error * Client * World B -> Prop :=
| dial_fails ev r b e :
    dial_call c w ev r b -> r = Err e ->
    connect_run c w
      (Some (Errorf_w "dial failed" e), c,
       {| broker := b; trace := trace w ++ [ev] |})
| channel_fails ev b1 cn b2 e :
    dial_call c w ev (Ok cn) b1 ->
    Connection_Channel cn b1 = (Err e, b2) ->
    connect_run c w
      (Some (Errorf_w "channel failed" e), c,
       {| broker := b2;
          trace := trace w ++ [ev; EvChannel cn (Err e)] |})
| declare_fails ev b1 cn b2 ch b3 e :
    dial_call c w ev (Ok cn) b1 ->
    Connection_Channel cn b1 = (Ok ch, b2) ->
    Channel_QueueDeclare ch (queue c) true false false false None b2
      = (Some e, b3) ->
    connect_run c w
      (Some (Errorf_w "queue declare failed" e), c,
       {| broker := b3;
          trace := trace w ++
            [ev; EvChannel cn (Ok ch);
             EvQueueDeclare ch (queue c) true false false false None
               (Some e)] |})
| connected ev b1 cn b2 ch b3 :
    dial_call c w ev (Ok cn) b1 ->
    Connection_Channel cn b1 = (Ok ch, b2) ->
    Channel_QueueDeclare ch (queue c) true false false false None b2
      = (None, b3) ->
    connect_run c w
      (None,
       {| conn := Some cn; channel := Some ch; queue := queue c;
          uri := uri c; tlsCfg := tlsCfg c |},
       {| broker := b3;
          trace := trace w ++
            [ev; EvChannel cn (Ok ch);
             EvQueueDeclare ch (queue c) true false false false None
               None] |})

(** The dial of [connect]: with TLS when a configuration is bound. *)
with dial_call (c : Client) (w : World B)
  : event -> result Connection -> B -> Prop :=
| dial_plain r b :
    tlsCfg c = None -> Dial (uri c) (broker w) = (r, b) ->
    dial_call c w (EvDial (uri c) r) r b
| dial_tls cfg r b :
    tlsCfg c = Some cfg -> DialTLS (uri c) cfg (broker w) = (r, b) ->
    dial_call c w (EvDialTLS (uri c) cfg r) r b.

(** The connects made after sleeping [ds], one after the other, all
    fail; the world they leave. *)
Fixpoint failedRounds (ds : list Z) (c : Client) (w : World B)
  : option (World B) :=
  match ds with
  | [] => Some w
  | d :: ds' =>
    match connect c (snd (sleep d w)) with
    | (Some _, _, w') => failedRounds ds' c w'
    | (None, _, _) => None
    end
  end.

(** The sleeps of a loop of [n] rounds that starts with [b], and the
    sleep the round after them would make. *)
Fixpoint backoffs (n : nat) (b : Z) : list Z :=
  match n with
  | O => []
  | S n' => b :: backoffs n' (int64 (b * 2))
  end.

Fixpoint backoff_after (n : nat) (b : Z) : Z :=
  match n with
  | O => b
  | S n' => backoff_after n' (int64 (b * 2))
  end.

(** [n] calls of [Close] in a row. *)
Fixpoint closeTimes (n : nat) (c : Client) : M B (unit * Client) :=
  match n with
  | O => ret (tt, c)
  | S n' => bind (Close c) (fun r => closeTimes n' (snd r))
  end.

(** The operations on a session. *)
Inductive op (Payload : Type) : Type :=
| OpPublishJSON (payload : Payload)
| OpReconnect (payload : Payload)
| OpConnect
| OpClose.
Arguments OpPublishJSON {Payload} payload.
Arguments OpReconnect {Payload} payload.
Arguments OpConnect {Payload}.
Arguments OpClose {Payload}.

Context {Payload : Type} `{Json Payload}.

Definition runOp (fuel : nat) (o : op Payload) (c : Client) (w : World B)
  : outcome B Client :=
  match o with
  | OpPublishJSON p =>
    match PublishJSON fuel p c w with
    | Returned (_, c') w' => Returned c' w'
    | Panicked w' => Panicked w'
    | OutOfFuel => OutOfFuel
    end
  | OpReconnect p =>
    match reconnectWithBackoff fuel p c w with
    | Returned (_, c') w' => Returned c' w'
    | Panicked w' => Panicked w'
    | OutOfFuel => OutOfFuel
    end
  | OpConnect => let '(_, c', w') := connect c w in Returned c' w'
  | OpClose => let '(_, c', w') := Close c w in Returned c' w'
  end.

Fixpoint runOps (fuel : nat) (ops : list (op Payload)) (c : Client)
    (w : World B) : outcome B Client :=
  match ops with
  | [] => Returned c w
  | o :: ops' =>
    match runOp fuel o c w with
    | Returned c' w' => runOps fuel ops' c' w'
    | Panicked w' => Panicked w'
    | OutOfFuel => OutOfFuel
    end
  end.

(** A call that did not panic and, if it returned, left a client with a
    channel. *)
Definition channel_kept {A} (get : A -> Client) (o : outcome B A) : Prop :=
  match o with
  | Returned a _ => channel (get a) <> None
  | Panicked _ => False
  | OutOfFuel => True
  end.

(** What the start of [main] does with one endpoint: nothing when its URI
    is empty; else it calls [NewClient] once, and registers the client, or
    logs a warning and goes on. *)
Inductive endpoint_step (nm warning uri q : string)
    (tls : option tls_Config) (cs : list clientRef) (w : World B)
  : list clientRef -> World B -> Prop :=
| endpoint_skipped :
    uri = "" ->
    endpoint_step nm warning uri q tls cs w cs w
| endpoint_registered cl w' :
    uri <> "" ->
    NewClient uri q tls w = (Ok cl, w') ->
    endpoint_step nm warning uri q tls cs w
      (cs ++ [{| name := nm; client := cl |}]) w'
| endpoint_warned e w' :
    uri <> "" ->
    NewClient uri q tls w = (Err e, w') ->
    endpoint_step nm warning uri q tls cs w cs
      {| broker := broker w';
         trace := trace w' ++ [EvLogPrintf warning None e] |}.

Definition nonempty (u : string) : bool := negb (String.eqb u "").

End Vocabulary.

Arguments OpPublishJSON {Payload} payload.
Arguments OpReconnect {Payload} payload.
Arguments OpConnect {Payload}.
Arguments OpClose {Payload}.

(** ** A scripted broker and two messages, for concrete runs *)

Module Scenario.

(** The answers the broker will give, per kind of call; when a list runs
    out the broker is down. *)
Record Script : Type := mkScript {
  dial_answers : list (result Connection);
  channel_answers : list (result Channel);
  declare_answers : list (option error);
  publish_answers : list (option error);
  close_answers : list (option error)
}.

Definition refused : error := ErrorNew "connection refused".

Definition next {A} (down : A) (l : list A) : A * list A :=
  match l with
  | [] => (down, [])
  | a :: l' => (a, l')
  end.

Definition dial (s : Script) : result Connection * Script :=
  let (r, l) := next (Err refused) (dial_answers s) in
  (r, mkScript l (channel_answers s) (declare_answers s)
        (publish_answers s) (close_answers s)).

Definition open_channel (s : Script) : result Channel * Script :=
  let (r, l) := next (Err ErrClosed) (channel_answers s) in
  (r, mkScript (dial_answers s) l (declare_answers s)
        (publish_answers s) (close_answers s)).

Definition declare (s : Script) : option error * Script :=
  let (r, l) := next (Some ErrClosed) (declare_answers s) in
  (r, mkScript (dial_answers s) (channel_answers s) l
        (publish_answers s) (close_answers s)).

Definition publish (s : Script) : option error * Script :=
  let (r, l) := next (Some ErrClosed) (publish_answers s) in
  (r, mkScript (dial_answers s) (channel_answers s) (declare_answers s)
        l (close_answers s)).

Definition close (s : Script) : option error * Script :=
  let (r, l) := next (Some ErrClosed) (close_answers s) in
  (r, mkScript (dial_answers s) (channel_answers s) (declare_answers s)
        (publish_answers s) l).

#[export] Instance scripted : Broker Script := {
  Dial := fun _ => dial;
  DialTLS := fun _ _ => dial;
  Connection_Channel := fun _ => open_channel;
  Channel_QueueDeclare := fun _ _ _ _ _ _ _ => declare;
  Channel_Publish := fun _ _ _ _ _ _ => publish;
  Channel_Close := fun _ => close;
  Connection_Close := fun _ => close;
  time_Sleep := fun _ s => s
}.

Definition script (ds : list (result Connection))
    (cs : list (result Channel)) (qs ps xs : list (option error))
  : World Script :=
  {| broker := mkScript ds cs qs ps xs; trace := [] |}.

(** A reading that encodes, and a value [json.Marshal] rejects. *)
Inductive message : Type :=
| Reading (body : bytes)
| Unsupported.

#[export] Instance message_json : Json message := {
  json_Marshal := fun m =>
    match m with
    | Reading body => Ok body
    | Unsupported => Err (ErrorNew "json: unsupported value")
    end
}.

Definition reading : message := Reading [Byte.x7b; Byte.x7d].

(** A session whose handles are [7] and [8]. *)
Definition session : Client :=
  {| conn := Some 7%nat; channel := Some 8%nat; queue := "temp";
     uri := "amqp://local"; tlsCfg := None |}.

(** A client that was never connected. *)
Definition fresh : Client :=
  {| conn := None; channel := None; queue := "temp";
     uri := "amqp://local"; tlsCfg := None |}.

(** A configuration, and a client bound to it whose URI has the scheme
    amqp; a client bound to none whose URI has the scheme amqps. *)
Definition tls12 : tls_Config :=
  {| Certificates := []; RootCAs := Some [[Byte.x02]];
     MinVersion := VersionTLS12 |}.

Definition secured : Client :=
  {| conn := None; channel := None; queue := "temp";
     uri := "amqp://local"; tlsCfg := Some tls12 |}.

Definition unsecured : Client :=
  {| conn := None; channel := None; queue := "temp";
     uri := "amqps://remote"; tlsCfg := None |}.

(** Certificate files: all there, or the client key pair missing. *)
Definition files_ok : Files :=
  {| tls_LoadX509KeyPair := fun _ _ => Ok [Byte.x01];
     os_ReadFile := fun _ => Ok [Byte.x02];
     AppendCertsFromPEM := fun pool pem => (pool ++ [pem], true) |}.

Definition files_no_client_cert : Files :=
  {| tls_LoadX509KeyPair := fun _ _ => Err (ErrorNew "no such file");
     os_ReadFile := fun _ => Ok [Byte.x02];
     AppendCertsFromPEM := fun pool pem => (pool ++ [pem], true) |}.


Definition body : bytes := [Byte.x7b; Byte.x7d].

(** The session's channel is closed and the broker is down. *)
Definition closed_and_down : World Script :=
  script [] [] [] [Some ErrClosed] [].

(** The channel is closed; the third dial goes through and the broker
    then accepts the message. *)
Definition closed_then_back : World Script :=
  script [Err refused; Err refused; Ok 10%nat] [Ok 11%nat] [None]
    [Some ErrClosed; None] [].

(** The broker refuses the message for a reason of its own. *)
Definition refusing : World Script :=
  script [] [] [] [Some (ErrorNew "content too large")] [].

(** A broker that accepts one connection. *)
Definition up_once : World Script :=
  script [Ok 1%nat] [Ok 2%nat] [None] [Some ErrClosed] [].

(** No dial goes through; the first transmission is answered "closed",
    the second is accepted. *)
Definition first_closed : World Script :=
  script [] [] [] [Some ErrClosed; None] [].

(** Two registered clients: the first one's channel is closed and its
    broker is down, the second one's transmission goes through. *)
Definition remote_down : clientRef :=
  {| name := "remote"; client := session |}.
Definition local_up : clientRef :=
  {| name := "local";
     client := {| conn := Some 3%nat; channel := Some 4%nat;
                  queue := "temp"; uri := "amqp://other";
                  tlsCfg := None |} |}.

End Scenario.

(** ** Go's string functions, as [main] uses them *)

Module strings.

(** [strings.HasPrefix(s, prefix)] *)
Definition HasPrefix (s prefix : string) : bool := String.prefix prefix s.

(** [strings.Contains(s, substr)]: [substr] starts somewhere in [s]. *)
Fixpoint Contains (s substr : string) : bool :=
  if String.prefix substr s then true
  else match s with
       | EmptyString => false
       | String _ s' => Contains s' substr
       end.

(** [strings.Split(s, sep)] for a separator that is not empty: [s] is cut
    at each occurrence of [sep], taken from the left and not overlapping.
    [cur] is the piece being read and [skip] what is left to pass of a
    separator just found. *)
Fixpoint splitFrom (sep : string) (skip : nat) (cur s : string)
  : list string :=
  match s with
  | EmptyString => [cur]
  | String ch s' =>
    match skip with
    | S k => splitFrom sep k cur s'
    | O =>
      if String.prefix sep s
      then cur :: splitFrom sep (String.length sep - 1) EmptyString s'
      else splitFrom sep 0 (cur ++ String ch EmptyString)%string s'
    end
  end.

Definition Split (s sep : string) : list string :=
  splitFrom sep 0 EmptyString s.

(** The string ["\n"]. *)
Definition newline : string := String "010"%char EmptyString.

End strings.

(** ** [strconv] *)

Module strconv.

Definition ErrSyntax : error := ErrorNew "invalid syntax".
Definition ErrRange : error := ErrorNew "value out of range".

(** The [NumError] of a failed conversion; it unwraps to [ErrSyntax] or
    [ErrRange].  (Its text also quotes the input.) *)
Definition NumError (func : string) (e : error) : error :=
  Errorf_w ("strconv." ++ func ++ ": parsing")%string e.

Definition digit (ch : Ascii.ascii) : option Z :=
  let n := Z.of_nat (Ascii.nat_of_ascii ch) in
  if (48 <=? n) && (n <=? 57) then Some (n - 48) else None.

(** The digits of an unsigned number of at most [bits] bits, read from the
    left: a byte that is no digit is a syntax error, a value that no
    longer fits is a range error, whichever comes first. *)
Fixpoint scanDigits (bits : Z) (acc : Z) (s : string) : result Z :=
  match s with
  | EmptyString => Ok acc
  | String ch s' =>
    match digit ch with
    | None => Err ErrSyntax
    | Some d =>
      if acc * 10 + d >? 2 ^ bits - 1 then Err ErrRange
      else scanDigits bits (acc * 10 + d) s'
    end
  end.

(** [strconv.Atoi(s)] where [int] has [intSize] bits: an optional sign,
    then at least one decimal digit, and a value that fits [int]. *)
Definition Atoi (intSize : Z) (s : string) : result Z :=
  let '(neg, digits) :=
    match s with
    | String ch s' =>
      if (ch =? "-")%char then (true, s')
      else if (ch =? "+")%char then (false, s')
      else (false, s)
    | EmptyString => (false, s)
    end in
  match digits with
  | EmptyString => Err (NumError "Atoi" ErrSyntax)
  | _ =>
    match scanDigits intSize 0 digits with
    | Err e => Err (NumError "Atoi" e)
    | Ok un =>
      let cutoff := 2 ^ (intSize - 1) in
      if negb neg && (un >=? cutoff) then Err (NumError "Atoi" ErrRange)
      else if neg && (un >? cutoff) then Err (NumError "Atoi" ErrRange)
      else Ok (if neg then - un else un)
    end
  end.

(** [strconv.ParseBool(str)] *)
Definition ParseBool (str : string) : result bool :=
  if existsb (String.eqb str) ["1"; "t"; "T"; "TRUE"; "true"; "True"]
  then Ok true
  else if existsb (String.eqb str) ["0"; "f"; "F"; "FALSE"; "false"; "False"]
  then Ok false
  else Err (NumError "ParseBool" ErrSyntax).

(** The decimal notation of an integer ([strconv.Itoa]). *)
Definition Itoa (n : Z) : string :=
  let digits := DecimalString.NilEmpty.string_of_uint
                  (Nat.to_uint (Z.abs_nat n)) in
  if n <? 0 then String "-"%char digits else digits.

End strconv.

(** ** The host of the process: files, directories, environment *)

Module os.

(** The flags [main] opens its log file with. *)
Inductive flag : Type := O_RDWR | O_CREATE | O_APPEND.

(** An open file is known by its descriptor. *)
Definition File := nat.

Record Host : Type := mkHost {
  ReadFile : string -> result string;
  ReadDir : string -> result (list string);
  LookupEnv : string -> option string;
  Hostname : string * option error;
  MkdirAll : string -> Z -> option error;
  OpenFile : string -> list flag -> Z -> result File;
  filepath_Join : list string -> string;
  filepath_Dir : string -> string
}.

(** [os.Getenv(key)]: the value, or the empty string when it is unset. *)
Definition Getenv (h : Host) (key : string) : string :=
  match LookupEnv h key with
  | Some v => v
  | None => EmptyString
  end.

End os.

(** [float64] values are kept abstract: the conversion of an [int] and
    the division are those of the platform. *)
Class Float64 (F : Type) : Type := {
  float64 : Z -> F;
  fdiv : F -> F -> F;
  f1000 : F
}.

(** ** Package main: the sensor and the environment *)

Module sensor.

Section Sensor.
Context {F : Type} `{Float64 F}.
Variable intSize : Z.

(** [readTemperature(sensorPath)] *)
Definition readTemperature (h : os.Host) (sensorPath : string) : result F :=
  match os.ReadFile h sensorPath with
  | Err err => Err err
  | Ok data =>
    let lines := strings.Split data strings.newline in
    if (List.length lines <? 2)%nat
       || negb (strings.Contains (nth 0 lines EmptyString) "YES")
    then Err (ErrorNew "sensor read failed: crc check not passed")
    else
      let parts := strings.Split (nth 1 lines EmptyString) "t=" in
      if negb (List.length parts =? 2)%nat
      then Err (ErrorNew "unexpected format")
      else
        match strconv.Atoi intSize (nth 1 parts EmptyString) with
        | Err err => Err err
        | Ok rawTemp => Ok (fdiv (float64 rawTemp) f1000)
        end
  end.

End Sensor.

(** [findSensorPath()] *)
Definition findSensorPath (h : os.Host) : result string :=
  let base := "/sys/bus/w1/devices/" in
  match os.ReadDir h base with
  | Err err => Err err
  | Ok entries =>
    (fix range (es : list string) : result string :=
       match es with
       | [] => Err (ErrorNew "no DS18B20 found")
       | e :: es' =>
         if strings.HasPrefix e "28-"
         then Ok (os.filepath_Join h [base; e; "w1_slave"])
         else range es'
       end) entries
  end.

(** [getEnvBool(key, defaultVal)] *)
Definition getEnvBool (h : os.Host) (key : string) (defaultVal : bool)
  : bool :=
  match os.LookupEnv h key with
  | None => defaultVal
  | Some val =>
    match strconv.ParseBool val with
    | Err _ => defaultVal
    | Ok parsed => parsed
    end
  end.

End sensor.

(** ** The transport of a connection *)

Module uri.

Inductive transport : Type :=
| Plaintext
| TLS.

Definition code (c : ascii) : nat := nat_of_ascii c.

Definition is_letter (c : ascii) : bool :=
  (Nat.leb 97 (code c) && Nat.leb (code c) 122)
  || (Nat.leb 65 (code c) && Nat.leb (code c) 90).

(** A digit, or one of [+], [-] and [.]. *)
Definition is_scheme_mark (c : ascii) : bool :=
  (Nat.leb 48 (code c) && Nat.leb (code c) 57)
  || Nat.eqb (code c) 43 || Nat.eqb (code c) 45 || Nat.eqb (code c) 46.

Definition lower (c : ascii) : ascii :=
  if Nat.leb 65 (code c) && Nat.leb (code c) 90
  then ascii_of_nat (code c + 32) else c.

(** The scheme [url.Parse] finds, in lower case: the letters, digits,
    [+], [-] and [.] before the first colon, the first of them a letter;
    the empty string when there is none. *)
Fixpoint scheme_from (first : bool) (acc s : string) : string :=
  match s with
  | EmptyString => EmptyString
  | String c s' =>
    if is_letter c
    then scheme_from false (acc ++ String (lower c) EmptyString)%string s'
    else if is_scheme_mark c
    then if first then EmptyString
         else scheme_from false (acc ++ String c EmptyString)%string s'
    else if Nat.eqb (code c) 58
    then if first then EmptyString else acc
    else EmptyString
  end.

Definition scheme (rawURL : string) : string :=
  scheme_from true EmptyString rawURL.

(** The transport of any connection amqp091-go opens for a URI, whether
    through [amqp.Dial] or [amqp.DialTLS]: TLS for the scheme amqps,
    plaintext for the scheme amqp (a bound [tls.Config] is then not
    used); it opens none for a URI with a space or another scheme. *)
Definition transport_of (u : string) : option transport :=
  if strings.Contains u " " then None
  else if String.eqb (scheme u) "amqps" then Some TLS
  else if String.eqb (scheme u) "amqp" then Some Plaintext
  else None.

End uri.

(** ** What a session lets through to the broker *)

Module Observed.

(** The transmissions the broker accepted. *)
Definition accepted (tr : list event)
  : list (Channel * bytes * option error) :=
  filter (fun s => match snd s with None => true | Some _ => false end)
         (sends tr).

(** The URIs given to [amqp.Dial], and the URIs and configurations given
    to [amqp.DialTLS], in order.  Which of the two is called says nothing
    of the transport: see [wire]. *)
Fixpoint Dial_calls (tr : list event) : list string :=
  match tr with
  | [] => []
  | EvDial u _ :: tr' => u :: Dial_calls tr'
  | _ :: tr' => Dial_calls tr'
  end.

Fixpoint DialTLS_calls (tr : list event) : list (string * tls_Config) :=
  match tr with
  | [] => []
  | EvDialTLS u cfg _ :: tr' => (u, cfg) :: DialTLS_calls tr'
  | _ :: tr' => DialTLS_calls tr'
  end.

(** The transport of each dial, in order: the library decides it from
    the URI, for [amqp.Dial] and [amqp.DialTLS] alike. *)
Fixpoint wire (tr : list event) : list (option uri.transport) :=
  match tr with
  | [] => []
  | EvDial u _ :: tr' => uri.transport_of u :: wire tr'
  | EvDialTLS u _ _ :: tr' => uri.transport_of u :: wire tr'
  | _ :: tr' => wire tr'
  end.

(** The client keeps its endpoint. *)
Definition same_config (c c' : Client) : Prop :=
  uri c' = uri c /\ queue c' = queue c /\ tlsCfg c' = tlsCfg c.

(** A call a reconnect round of the client [c] may make: a sleep, a dial
    of its URI through the entry point its configuration selects, the
    opening of a channel, the declaration of its queue. *)
Definition reconnect_event (c : Client) (ev : event) : Prop :=
  match ev with
  | EvSleep _ => True
  | EvDial u _ => tlsCfg c = None /\ u = uri c
  | EvDialTLS u cfg _ => tlsCfg c = Some cfg /\ u = uri c
  | EvChannel _ _ => True
  | EvQueueDeclare _ q durable autoDelete exclusive noWait args _ =>
    q = queue c /\ durable = true /\ autoDelete = false /\
    exclusive = false /\ noWait = false /\ args = None
  | _ => False
  end.

(** A call [PublishJSON] of [body] on the client [c] may make: those of a
    reconnect round, and the transmission of [body] as JSON to the
    client's queue over the default exchange. *)
Definition publish_event (c : Client) (body : bytes) (ev : event) : Prop :=
  match ev with
  | EvPublish _ exchange key mandatory immediate msg _ =>
    exchange = "" /\ key = queue c /\ mandatory = false /\
    immediate = false /\
    msg = {| ContentType := "application/json"; Body := body |}
  | _ => reconnect_event c ev
  end.

(** A call any operation on the client [c] may make. *)
Definition session_event (c : Client) (ev : event) : Prop :=
  match ev with
  | EvPublish _ exchange key mandatory immediate msg _ =>
    exchange = "" /\ key = queue c /\ mandatory = false /\
    immediate = false /\ ContentType msg = "application/json"
  | EvChannelClose _ _ => True
  | EvConnectionClose _ _ => True
  | _ => reconnect_event c ev
  end.

Definition exhausted : error := ErrorNew "unable to reconnect to RabbitMQ".

End Observed.
Import Observed.

(** ** Package utils *)

Module utils.

(** The permissions 0755 and 0666. *)
Definition perm_0755 : Z := 7 * 64 + 5 * 8 + 5.
Definition perm_0666 : Z := 6 * 64 + 6 * 8 + 6.

(** [SetupFileLogger(path)]: the error, and the file the log output is
    set to when there is none. *)
Definition SetupFileLogger (h : os.Host) (path : string)
  : option error * option os.File :=
  let dir := os.filepath_Dir h path in
  match os.MkdirAll h dir perm_0755 with
  | Some err => (Some err, None)
  | None =>
    match os.OpenFile h path [os.O_RDWR; os.O_CREATE; os.O_APPEND]
            perm_0666 with
    | Err err => (Some err, None)
    | Ok f => (None, Some f)
    end
  end.

End utils.

(** ** Package main: the process *)

Module program.

Record TemperatureMessage (F : Type) : Type := mkMessage {
  Timestamp : string;
  Temperature : F;
  Hostname : string
}.
Arguments mkMessage {F} _ _ _.
Arguments Timestamp {F} _.
Arguments Temperature {F} _.
Arguments Hostname {F} _.

(** The gauge [tempGauge] and the counter [msgCount] (which only ever
    grows by one). *)
Record Metrics (F : Type) : Type := mkMetrics {
  tempGauge : F;
  msgCount : nat
}.
Arguments mkMetrics {F} _ _.
Arguments tempGauge {F} _.
Arguments msgCount {F} _.

(** What the loop of [main] works on: the registered clients, the
    metrics and the flag [healthy]. *)
Record Process (F : Type) : Type := mkProcess {
  registry : list clientRef;
  metrics : Metrics F;
  healthy : bool
}.
Arguments mkProcess {F} _ _ _.
Arguments registry {F} _.
Arguments metrics {F} _.
Arguments healthy {F} _.

(** What the [select] of the loop receives: a tick, with the time of day
    (already in RFC 3339) and the host as they are then, or a signal. *)
Inductive input : Type :=
| Tick (now : string) (h : os.Host)
| Signal.

(** How the start of [main] ends: a [log.Fatalf] with its format and
    error ([log.Fatal] has no error), or the loop is entered. *)
Inductive booted (F : Type) : Type :=
| BootFatal (format : string) (err : option error)
| Booted (hostname sensorPath : string) (p : Process F).
Arguments BootFatal {F} _ _.
Arguments Booted {F} _ _ _.

Section Program.
Context {B : Type} `{Broker B} {F : Type} `{Float64 F}
        `{Json (TemperatureMessage F)}.
Variable intSize : Z.
Local Open Scope go_scope.

(** [main] down to the loop. *)
Definition boot (h : os.Host) (files : Files) : M B (booted F) :=
  match fst (utils.SetupFileLogger h "log/ms-temp-sensor.log") with
  | Some err => ret (BootFatal "Failed to set up log file: %v" (Some err))
  | None =>
    let hostname := fst (os.Hostname h) in
    match sensor.findSensorPath h with
    | Err err => ret (BootFatal "Sensor not found: %v" (Some err))
    | Ok sensorPath =>
      let localURI := os.Getenv h "RABBITMQ_LOCAL_URI" in
      let remoteURI := os.Getenv h "RABBITMQ_REMOTE_URI" in
      let queue := os.Getenv h "RABBITMQ_QUEUE" in
      let queue := if String.eqb queue "" then "temp" else queue in
      let useMTLS := sensor.getEnvBool h "RABBITMQ_USE_MTLS" false in
      let useTLS := sensor.getEnvBool h "RABBITMQ_USE_TLS" false in
      match LoadTLSConfig files useTLS useMTLS with
      | (_, Some err) => ret (BootFatal "TLS config error: %v" (Some err))
      | (tlsCfg, None) =>
        r <- start localURI remoteURI queue tlsCfg ;;
        match r with
        | Fatal msg => ret (BootFatal msg None)
        | Started clients =>
          ret (Booted hostname sensorPath
                 {| registry := clients;
                    metrics := {| tempGauge := float64 0; msgCount := 0 |};
                    healthy := true |})
        end
      end
    end
  end.

(** The case [<-ticker.C] of the loop. *)
Definition onTick (fuel : nat) (hostname sensorPath : string)
    (now : string) (h : os.Host) (p : Process F) (w : World B)
  : outcome B (Process F) :=
  match sensor.readTemperature intSize h sensorPath with
  | Err err =>
    let (_, w1) := logPrintf "Failed to read sensor: %v" None err w in
    Returned p w1
  | Ok temp =>
    let msg := {| Timestamp := now; Temperature := temp;
                  Hostname := hostname |} in
    let m := {| tempGauge := temp;
                msgCount := S (msgCount (metrics p)) |} in
    match publishAll fuel msg (registry p) w with
    | Returned clients w1 =>
      Returned {| registry := clients; metrics := m;
                  healthy := healthy p |} w1
    | Panicked w1 => Panicked w1
    | OutOfFuel => OutOfFuel
    end
  end.

(** The loop [for _, c := range clients { c.client.Close() }]. *)
Fixpoint closeAll (clients : list clientRef) : M B (list clientRef) :=
  match clients with
  | [] => ret []
  | c :: rest =>
    r <- Close (client c) ;;
    rest' <- closeAll rest ;;
    ret ({| name := name c; client := snd r |} :: rest')
  end.

(** The case [<-sigChan] of the loop.  (Its line "Shutting down" is not
    kept in the trace.) *)
Definition onSignal (p : Process F) : M B (Process F) :=
  clients <- closeAll (registry p) ;;
  ret {| registry := clients; metrics := metrics p; healthy := false |}.

(** The loop of [main] on the inputs it receives, in the order it
    receives them; it returns at the first signal.  When the inputs run
    out the process is waiting for the next one. *)
Fixpoint mainLoop (fuel : nat) (hostname sensorPath : string)
    (inputs : list input) (p : Process F) (w : World B)
  : outcome B (Process F) :=
  match inputs with
  | [] => Returned p w
  | Tick now h :: rest =>
    match onTick fuel hostname sensorPath now h p w with
    | Returned p1 w1 => mainLoop fuel hostname sensorPath rest p1 w1
    | Panicked w1 => Panicked w1
    | OutOfFuel => OutOfFuel
    end
  | Signal :: _ =>
    let (p1, w1) := onSignal p w in Returned p1 w1
  end.

End Program.

Section Readings.
Context {F : Type} `{Float64 F}.

(** The ticks, up to the first signal, at which the sensor could be
    read. *)
Fixpoint readings (intSize : Z) (sensorPath : string) (inputs : list input)
  : list F :=
  match inputs with
  | [] => []
  | Tick _ h :: rest =>
    match sensor.readTemperature intSize h sensorPath with
    | Ok temp => temp :: readings intSize sensorPath rest
    | Err _ => readings intSize sensorPath rest
    end
  | Signal :: _ => []
  end.

End Readings.

Definition signalled (inputs : list input) : bool :=
  existsb (fun i => match i with Signal => true | Tick _ _ => false end)
          inputs.

(** The releases of one [Close] on the client [c], when the library
    answers [r]: the channel if there is one, then the connection if
    there is one. *)
Definition closeEvents (c : Client) (r : option error * option error)
  : list event :=
  match channel c with
  | Some ch => [EvChannelClose ch (fst r)]
  | None => []
  end ++
  match conn c with
  | Some cn => [EvConnectionClose cn (snd r)]
  | None => []
  end.

End program.

(** ** A host, a sensor file and metrics, for concrete runs *)

Module Bench.
Import Scenario.

(** A quotient written down, not computed. *)
Inductive frac : Type := Frac (num den : Z).

#[export] Instance frac_float : Float64 frac := {
  float64 := fun n => Frac n 1;
  fdiv := fun a b => match a, b with Frac x _, Frac y _ => Frac x y end;
  f1000 := Frac 1000 1
}.

#[export] Instance reading_json : Json (program.TemperatureMessage frac) := {
  json_Marshal := fun _ => Ok [Byte.x7b; Byte.x7d]
}.

Definition crc_line : string := "6e 01 4b 46 7f ff 02 10 71 : crc=71 YES".
Definition data_prefix : string := "6e 01 4b 46 7f ff 02 10 71 ".

(** The two lines of a DS18B20 at 22.875 degrees, and of one below zero. *)
Definition sensor_file : string :=
  (crc_line ++ strings.newline ++ data_prefix ++ "t=" ++ "22875"
   ++ strings.newline)%string.

Definition frozen_file : string :=
  (crc_line ++ strings.newline ++ data_prefix ++ "t="
   ++ strconv.Itoa (-1250) ++ strings.newline)%string.

Definition env_local_mtls (key : string) : option string :=
  if String.eqb key "RABBITMQ_LOCAL_URI" then Some "amqp://local"
  else if String.eqb key "RABBITMQ_USE_MTLS" then Some "true"
  else if String.eqb key "RABBITMQ_USE_TLS" then Some "yes"
  else None.

Definition join3 (parts : list string) : string :=
  match parts with
  | [base; e; f] => (base ++ e ++ "/" ++ f)%string
  | _ => ""
  end.

Definition host (file : result string) (entries : result (list string))
  : os.Host :=
  {| os.ReadFile := fun _ => file;
     os.ReadDir := fun _ => entries;
     os.LookupEnv := env_local_mtls;
     os.Hostname := ("node1", None);
     os.MkdirAll := fun _ _ => None;
     os.OpenFile := fun _ _ _ => Ok 3%nat;
     os.filepath_Join := join3;
     os.filepath_Dir := fun _ => "log" |}.

Definition pi : os.Host :=
  host (Ok sensor_file) (Ok ["w1_bus_master1"; "28-0316a2795cff"]).

Definition pi_outdoors : os.Host :=
  host (Ok frozen_file) (Ok ["28-0316a2795cff"]).

Definition pi_unplugged : os.Host :=
  host (Err (ErrorNew "no such file")) (Ok ["w1_bus_master1"]).

(** RABBITMQ_USE_TLS is on, and both URIs have the scheme amqp. *)
Definition env_tls_on_amqp (key : string) : option string :=
  if String.eqb key "RABBITMQ_LOCAL_URI" then Some "amqp://local"
  else if String.eqb key "RABBITMQ_REMOTE_URI" then Some "amqp://remote"
  else if String.eqb key "RABBITMQ_USE_TLS" then Some "true"
  else None.

Definition pi_tls : os.Host :=
  {| os.ReadFile := fun _ => Ok sensor_file;
     os.ReadDir := fun _ => Ok ["28-0316a2795cff"];
     os.LookupEnv := env_tls_on_amqp;
     os.Hostname := ("node1", None);
     os.MkdirAll := fun _ _ => None;
     os.OpenFile := fun _ _ _ => Ok 3%nat;
     os.filepath_Join := join3;
     os.filepath_Dir := fun _ => "log" |}.

Definition sensor_path : string :=
  "/sys/bus/w1/devices/28-0316a2795cff/w1_slave".

Definition idle : program.Process frac :=
  {| program.registry := [remote_down; local_up];
     program.metrics := {| program.tempGauge := Frac 0 1;
                           program.msgCount := 0 |};
     program.healthy := true |}.

(** A broker that accepts one connection and every message. *)
Definition up : World Script :=
  script [Ok 1%nat] [Ok 2%nat] [None] [None; None; None] [].

(** A broker that accepts two connections. *)
Definition up_twice : World Script :=
  script [Ok 1%nat; Ok 3%nat] [Ok 2%nat; Ok 4%nat] [None; None] [] [].

End Bench.

(** * Properties *)

(** ** The trace projections distribute over concatenation *)

Section TraceFacts.

Ltac by_cases_on_head tr :=
  induction tr as [| [] tr IH]; intros; simpl;
  rewrite ?IH; reflexivity.

Lemma sleeps_app (a b : list event) : sleeps (a ++ b) = sleeps a ++ sleeps b.
Proof. revert b; by_cases_on_head a. Qed.

Lemma dials_app (a b : list event) : dials (a ++ b) = dials a ++ dials b.
Proof. revert b; by_cases_on_head a. Qed.

Lemma sends_app (a b : list event) : sends (a ++ b) = sends a ++ sends b.
Proof. revert b; by_cases_on_head a. Qed.

Lemma closes_app (a b : list event) : closes (a ++ b) = closes a ++ closes b.
Proof. revert b; by_cases_on_head a. Qed.

Lemma logs_app (a b : list event) : logs (a ++ b) = logs a ++ logs b.
Proof. revert b; by_cases_on_head a. Qed.

Lemma steps_app (a b : list event) : steps (a ++ b) = steps a ++ steps b.
Proof. revert b; by_cases_on_head a. Qed.

End TraceFacts.

Create Rewrite HintDb trace.
#[local] Hint Rewrite sleeps_app dials_app sends_app closes_app logs_app
  steps_app : trace.

(** ** The session: [connect], [NewClient], [Close] *)

Section SessionFacts.
Context {B : Type} `{Broker B}.

Lemma connect_runs (c : Client) (w : World B) :
  connect_run c w (connect c w).
Proof.
  unfold connect, bind, call, ret.
  destruct (tlsCfg c) as [cfg |] eqn:Etls.
  - destruct (DialTLS (uri c) cfg (broker w)) as [[cn | e] b1] eqn:Ed;
      cbn [broker trace].
    + destruct (Connection_Channel cn b1) as [[ch | e] b2] eqn:Ec;
        cbn [broker trace]; rewrite <- app_assoc; cbn [app].
      * destruct (Channel_QueueDeclare ch (queue c) true false false false
                    None b2) as [[e |] b3] eqn:Eq;
          cbn [broker trace]; rewrite <- app_assoc; cbn [app].
        -- eapply declare_fails; eauto using dial_tls.
        -- eapply connected; eauto using dial_tls.
      * eapply channel_fails; eauto using dial_tls.
    + eapply dial_fails; eauto using dial_tls.
  - destruct (Dial (uri c) (broker w)) as [[cn | e] b1] eqn:Ed;
      cbn [broker trace].
    + destruct (Connection_Channel cn b1) as [[ch | e] b2] eqn:Ec;
        cbn [broker trace]; rewrite <- app_assoc; cbn [app].
      * destruct (Channel_QueueDeclare ch (queue c) true false false false
                    None b2) as [[e |] b3] eqn:Eq;
          cbn [broker trace]; rewrite <- app_assoc; cbn [app].
        -- eapply declare_fails; eauto using dial_plain.
        -- eapply connected; eauto using dial_plain.
      * eapply channel_fails; eauto using dial_plain.
    + eapply dial_fails; eauto using dial_plain.
Qed.

End SessionFacts.

Section SessionLemmas.
Context {B : Type} `{Broker B}.

Ltac invert_connect c w :=
  let R := fresh "R" in
  pose proof (connect_runs c w) as R;
  inversion R; subst; clear R;
  repeat match goal with
         | D : dial_call _ _ _ _ _ |- _ => inversion D; subst; clear D
         end.

(** What [connect] adds to the trace: one dial of the client's URI, no
    sleep, no transmission, no release, no log line. *)
Lemma connect_trace (c : Client) (w : World B) :
  exists tr,
    trace (snd (connect c w)) = trace w ++ tr /\
    steps tr = [Connect] /\ dials tr = [uri c] /\ sleeps tr = [] /\
    sends tr = [] /\ closes tr = [] /\ logs tr = [].
Proof.
  invert_connect c w; cbn [snd trace]; eexists;
    (split; [reflexivity |]); repeat split; reflexivity.
Qed.

Lemma connect_failure_keeps (c c' : Client) (w w' : World B) (e : error) :
  connect c w = (Some e, c', w') -> c' = c.
Proof.
  intros E. invert_connect c w; congruence.
Qed.

Lemma connect_success_handles (c c' : Client) (w w' : World B) :
  connect c w = (None, c', w') ->
  exists cn ch, c' = set_handles c cn ch.
Proof.
  intros E. invert_connect c w; try congruence;
    exists cn, ch; unfold set_handles; congruence.
Qed.

Lemma connect_keeps_channel (c c' : Client) (w w' : World B)
    (r : option error) :
  connect c w = (r, c', w') -> channel c <> None -> channel c' <> None.
Proof.
  intros E Hc. destruct r as [e |].
  - apply connect_failure_keeps in E. now subst.
  - apply connect_success_handles in E. destruct E as (cn & ch & ->).
    discriminate.
Qed.

End SessionLemmas.

(** ** The reconnect loop *)

Section ReconnectLemmas.
Context {B : Type} `{Broker B}.

Lemma failedRounds_trace (ds : list Z) (c : Client) :
  forall w w' : World B,
    failedRounds ds c w = Some w' ->
    exists tr,
      trace w' = trace w ++ tr /\
      steps tr = flat_map (fun d => [Sleep d; Connect]) ds /\
      sleeps tr = ds /\
      dials tr = map (fun _ => uri c) ds /\
      sends tr = [] /\ closes tr = [] /\ logs tr = [].
Proof.
  induction ds as [| d ds IH]; intros w w' E; cbn [failedRounds] in E.
  - injection E as <-. exists []. rewrite app_nil_r. repeat split.
  - destruct (connect_trace c (snd (sleep d w)))
      as (tr1 & T1 & S1 & D1 & Z1 & P1 & C1 & L1).
    destruct (connect c (snd (sleep d w))) as [[[e |] c1] w1];
      [| discriminate].
    cbn [snd] in T1. apply IH in E.
    destruct E as (tr2 & T2 & S2 & Z2 & D2 & P2 & C2 & L2).
    exists (EvSleep d :: tr1 ++ tr2).
    split.
    + rewrite T2, T1. cbn [sleep snd trace].
      now rewrite <- !app_assoc.
    + cbn [steps dials sleeps sends closes logs flat_map map app].
      autorewrite with trace.
      rewrite S1, S2, D1, D2, Z1, Z2, P1, P2, C1, C2, L1, L2.
      repeat split.
Qed.

Lemma reconnectLoop_after_failures
    (retry : Client -> World B -> outcome B (option error * Client))
    (c : Client) (m : nat) :
  forall (k : nat) (b : Z) (w wk : World B),
    failedRounds (backoffs k b) c w = Some wk ->
    reconnectLoop retry (k + m) b c w
    = reconnectLoop retry m (backoff_after k b) c wk.
Proof.
  induction k as [| k IH]; intros b w wk E;
    cbn [backoffs failedRounds] in E.
  - now injection E as <-.
  - cbn [Nat.add reconnectLoop backoff_after].
    unfold sleep at 1. unfold sleep in E at 1. cbn [snd] in E.
    destruct (connect c _) as [[[e |] c1] w1] eqn:Ec; [| discriminate].
    apply connect_failure_keeps in Ec. subst c1.
    now apply IH.
Qed.

Lemma reconnectLoop_exhausted
    (retry : Client -> World B -> outcome B (option error * Client))
    (c : Client) (n : nat) (b : Z) (w w' : World B) :
  failedRounds (backoffs n b) c w = Some w' ->
  reconnectLoop retry n b c w
  = Returned (Some (ErrorNew "unable to reconnect to RabbitMQ"), c) w'.
Proof.
  intros E.
  rewrite <- (Nat.add_0_r n) at 1.
  now rewrite (reconnectLoop_after_failures retry c 0 n b w w' E).
Qed.

Lemma reconnectLoop_reconnected
    (retry : Client -> World B -> outcome B (option error * Client))
    (c c' : Client) (k m : nat) (b : Z) (w wk w' : World B) :
  failedRounds (backoffs k b) c w = Some wk ->
  connect c (snd (sleep (backoff_after k b) wk)) = (None, c', w') ->
  reconnectLoop retry (k + S m) b c w = retry c' w'.
Proof.
  intros E Ec.
  rewrite (reconnectLoop_after_failures retry c (S m) k b w wk E).
  cbn [reconnectLoop]. unfold sleep at 1. unfold sleep in Ec.
  cbn [snd] in Ec. now rewrite Ec.
Qed.

(** When the broker is down for good, every round fails. *)
Lemma failedRounds_when_down (c : Client) :
  (forall w : World B, fst (fst (connect c w)) <> None) ->
  forall (ds : list Z) (w : World B),
    exists w', failedRounds ds c w = Some w'.
Proof.
  intros Down. induction ds as [| d ds IH]; intros w; cbn [failedRounds].
  - now exists w.
  - specialize (Down (snd (sleep d w))).
    destruct (connect c (snd (sleep d w))) as [[[e |] c1] w1].
    + apply IH.
    + now cbn in Down.
Qed.

End ReconnectLemmas.

(** ** Publishing *)

Section PublishLemmas.
Context {B : Type} `{Broker B} {Payload : Type} `{Json Payload}.

Lemma transmit_trace (ch : Channel) (c : Client) (body : bytes)
    (w w1 : World B) (r : option error) :
  transmit ch c body w = (r, w1) ->
  trace w1 = trace w ++
    [EvPublish ch "" (queue c) false false
       {| ContentType := "application/json"; Body := body |} r].
Proof.
  unfold transmit, call. destruct (Channel_Publish _ _ _ _ _ _ _) as [r0 b].
  intros E. injection E as <- <-. reflexivity.
Qed.

(** A transmission answered "closed" hands over to the reconnect loop. *)
Lemma PublishJSON_closed (fuel : nat) (payload : Payload) (body : bytes)
    (c : Client) (ch : Channel) (w w1 : World B) (e : error) :
  json_Marshal payload = Ok body ->
  channel c = Some ch ->
  transmit ch c body w = (Some e, w1) ->
  errors_Is e ErrClosed = true ->
  PublishJSON (S fuel) payload c w
  = reconnectLoop (PublishJSON fuel payload) 5 time_Second c w1.
Proof.
  intros Hm Hc Ht He. cbn [PublishJSON]. now rewrite Hm, Hc, Ht, He.
Qed.

Lemma backoffs_5 :
  backoffs 5 time_Second = map seconds [1; 2; 4; 8; 16].
Proof. reflexivity. Qed.

(** C1: a transmission answered "closed", then five reconnect rounds that
    all fail (the connects made after sleeping 1, 2, 4, 8 and 16 seconds):
    [PublishJSON] returns "unable to reconnect to RabbitMQ"; what it did
    is one transmission (the failed one), then five times a sleep and a
    connect, with the sleeps 1, 2, 4, 8, 16 seconds; the client is as it
    was, and nothing of the message is kept. *)
Theorem C1_retries_exhausted (fuel : nat) (payload : Payload)
    (body : bytes) (c : Client) (ch : Channel) (w w1 w5 : World B)
    (e : error) :
  json_Marshal payload = Ok body ->
  channel c = Some ch ->
  transmit ch c body w = (Some e, w1) ->
  errors_Is e ErrClosed = true ->
  failedRounds (map seconds [1; 2; 4; 8; 16]) c w1 = Some w5 ->
  PublishJSON (S fuel) payload c w
  = Returned (Some (ErrorNew "unable to reconnect to RabbitMQ"), c) w5
  /\ exists tr,
       trace w5 = trace w ++ tr /\
       steps tr = [Send;
                   Sleep (seconds 1); Connect;
                   Sleep (seconds 2); Connect;
                   Sleep (seconds 4); Connect;
                   Sleep (seconds 8); Connect;
                   Sleep (seconds 16); Connect] /\
       sends tr = [(ch, body, Some e)] /\
       dials tr = repeat (uri c) 5.
Proof.
  intros Hm Hc Ht He Hf. split.
  - rewrite (PublishJSON_closed fuel payload body c ch w w1 e Hm Hc Ht He).
    apply reconnectLoop_exhausted. now rewrite backoffs_5.
  - apply transmit_trace in Ht.
    destruct (failedRounds_trace _ c w1 w5 Hf)
      as (tr & T & S & _ & D & P & _ & _).
    eexists. split.
    + rewrite T, Ht, <- app_assoc. reflexivity.
    + cbn [app steps sends dials]. rewrite S, P, D. repeat split.
Qed.

(** C2: a transmission answered "closed", then [k - 1] failed reconnect
    rounds and a [k]-th connect that succeeds ([1 <= k <= 5]): what
    [PublishJSON] does from there is one call of [PublishJSON] with the
    same payload, on the reconnected client, and its result is the
    result.  Up to that call the only transmission is the failed one,
    [k] connects were made, and the sleeps add up to [2^k - 1] seconds.
    That call transmits the same body once more, on the new channel and
    to the same queue: when the broker accepts it [PublishJSON] returns
    nil, when it refuses it for another reason that error is returned,
    and when the channel is closed again a new reconnect cycle starts. *)
Theorem C2_reconnected_publishes_again (fuel : nat) (payload : Payload)
    (body : bytes) (c c' : Client) (ch : Channel) (k : nat)
    (w w1 wk w' : World B) (e : error) :
  json_Marshal payload = Ok body ->
  channel c = Some ch ->
  transmit ch c body w = (Some e, w1) ->
  errors_Is e ErrClosed = true ->
  (1 <= k <= 5)%nat ->
  failedRounds (map seconds (firstn (k - 1) [1; 2; 4; 8; 16])) c w1
    = Some wk ->
  connect c (snd (sleep (seconds (2 ^ Z.of_nat (k - 1))) wk))
    = (None, c', w') ->
  PublishJSON (S fuel) payload c w = PublishJSON fuel payload c' w'
  /\ (exists tr,
        trace w' = trace w ++ tr /\
        sends tr = [(ch, body, Some e)] /\
        dials tr = repeat (uri c) k /\
        fold_right Z.add 0 (sleeps tr) = seconds (2 ^ Z.of_nat k - 1))
  /\ exists ch' r2 w2,
       channel c' = Some ch' /\ queue c' = queue c /\
       transmit ch' c' body w' = (r2, w2) /\
       trace w2 = trace w' ++
         [EvPublish ch' "" (queue c) false false
            {| ContentType := "application/json"; Body := body |} r2] /\
       PublishJSON (S (S fuel)) payload c w
       = match r2 with
         | None => Returned (None, c') w2
         | Some e2 =>
           if errors_Is e2 ErrClosed
           then reconnectWithBackoff fuel payload c' w2
           else Returned (Some e2, c') w2
         end.
Proof.
  intros Hm Hc Ht He Hk Hf Hok.
  assert (Hk' : exists j, k = S j /\ (j <= 4)%nat)
    by (exists (k - 1)%nat; lia).
  destruct Hk' as (j & -> & Hj).
  replace (S j - 1)%nat with j in * by lia.
  assert (Hb : backoffs j time_Second
               = map seconds (firstn j [1; 2; 4; 8; 16]) /\
               backoff_after j time_Second = seconds (2 ^ Z.of_nat j) /\
               fold_right Z.add 0
                 (map seconds (firstn j [1; 2; 4; 8; 16]))
               + seconds (2 ^ Z.of_nat j)
               = seconds (2 ^ Z.of_nat (S j) - 1)).
  { do 5 (destruct j as [| j]; [repeat split; reflexivity |]). lia. }
  destruct Hb as (Hb1 & Hb2 & Hb3).
  assert (Hfresh : forall f,
             PublishJSON (S f) payload c w = PublishJSON f payload c' w').
  { intros f.
    rewrite (PublishJSON_closed f payload body c ch w w1 e Hm Hc Ht He).
    replace 5%nat with (j + S (4 - j))%nat by lia.
    apply reconnectLoop_reconnected with (wk := wk).
    - now rewrite Hb1.
    - now rewrite Hb2. }
  split; [apply Hfresh | split].
  - apply transmit_trace in Ht.
    destruct (failedRounds_trace _ c w1 wk Hf)
      as (tr & T & _ & Sl & D & P & _ & _).
    destruct (connect_trace c (snd (sleep (seconds (2 ^ Z.of_nat j)) wk)))
      as (tr1 & T1 & _ & D1 & Sl1 & P1 & _ & _).
    rewrite Hok in T1. cbn [snd sleep trace] in T1.
    eexists. split.
    + rewrite T1, T, Ht, <- !app_assoc. reflexivity.
    + cbn [app sends dials sleeps]. autorewrite with trace.
      cbn [sends dials sleeps app].
      rewrite P, P1, D, D1, Sl, Sl1, app_nil_r.
      repeat split.
      * clear - Hj.
        do 5 (destruct j as [| j]; [reflexivity |]). lia.
      * rewrite fold_right_app. cbn [fold_right].
        rewrite Z.add_0_r, <- Hb3.
        generalize (map seconds (firstn j [1; 2; 4; 8; 16])) as l.
        induction l as [| x l IH]; cbn [fold_right]; [lia |].
        rewrite IH. lia.
  - destruct (connect_success_handles _ _ _ _ Hok) as (cn & ch' & Ec).
    assert (Hc' : channel c' = Some ch') by (now rewrite Ec).
    assert (Hq : queue c' = queue c) by (now rewrite Ec).
    destruct (transmit ch' c' body w') as [r2 w2] eqn:Et2.
    exists ch', r2, w2.
    split; [exact Hc' |]. split; [exact Hq |]. split; [exact Et2 |].
    split.
    + rewrite <- Hq. exact (transmit_trace ch' c' body w' w2 r2 Et2).
    + rewrite Hfresh. cbn [PublishJSON]. rewrite Hm, Hc', Et2.
      destruct r2 as [e2 |]; reflexivity.
Qed.

(** C3: a payload [json.Marshal] rejects: [PublishJSON] returns the
    encoder's error at once; the world is untouched (no transmission, no
    connect, no sleep) and so is the client. *)
Theorem C3_marshal_error_is_immediate (fuel : nat) (payload : Payload)
    (c : Client) (w : World B) (err : error) :
  json_Marshal payload = Err err ->
  PublishJSON (S fuel) payload c w = Returned (Some err, c) w.
Proof.
  intros Hm. cbn [PublishJSON]. now rewrite Hm.
Qed.

(** C4: a transmission that fails with an error that is not
    [amqp.ErrClosed] (nor wraps it): [PublishJSON] returns that very
    error; the transmission is the only call made (no connect, no
    sleep) and the client is as it was. *)
Theorem C4_other_errors_are_returned (fuel : nat) (payload : Payload)
    (body : bytes) (c : Client) (ch : Channel) (w w1 : World B)
    (e : error) :
  json_Marshal payload = Ok body ->
  channel c = Some ch ->
  transmit ch c body w = (Some e, w1) ->
  errors_Is e ErrClosed = false ->
  PublishJSON (S fuel) payload c w = Returned (Some e, c) w1
  /\ trace w1 = trace w ++
       [EvPublish ch "" (queue c) false false
          {| ContentType := "application/json"; Body := body |} (Some e)]
  /\ steps (trace w1) = steps (trace w) ++ [Send].
Proof.
  intros Hm Hc Ht He. split; [| split].
  - cbn [PublishJSON]. now rewrite Hm, Hc, Ht, He.
  - now apply transmit_trace.
  - apply transmit_trace in Ht. rewrite Ht. now autorewrite with trace.
Qed.

End PublishLemmas.

(** ** The claims on the session *)

Section SessionClaims.
Context {B : Type} `{Broker B}.

(** C6 (amended): [connect] dials the client's URI, through
    [amqp.DialTLS] with the bound configuration when one is bound and
    through [amqp.Dial] otherwise, over the transport the library takes
    from the URI (TLS for the scheme amqps, plaintext for amqp); then it
    opens a channel, then declares the queue durable, not auto-delete,
    not exclusive, without arguments; it answers "dial failed", "channel
    failed" or "queue declare failed" where the step fails, leaving the
    client as it was; when all three succeed it sets both handles to the
    new ones.  No handle is released on the way. *)
Theorem C6_connect_contract (c : Client) (w : World B) :
  connect_run c w (connect c w)
  /\ exists tr,
       trace (snd (connect c w)) = trace w ++ tr /\
       closes tr = [] /\ dials tr = [uri c] /\
       wire tr = [uri.transport_of (uri c)].
Proof.
  split.
  - apply connect_runs.
  - pose proof (connect_runs c w) as R.
    inversion R; subst;
      repeat match goal with
             | D : dial_call _ _ _ _ _ |- _ => inversion D; subst; clear D
             end;
      cbn [snd trace]; eexists; (split; [reflexivity |]);
      repeat split; reflexivity.
Qed.

Lemma Close_run (c : Client) (w : World B) :
  exists r1 r2 w',
    Close c w = (tt, c, w') /\
    trace w' = trace w
      ++ match channel c with
         | Some ch => [EvChannelClose ch r1]
         | None => []
         end
      ++ match conn c with
         | Some cn => [EvConnectionClose cn r2]
         | None => []
         end.
Proof.
  unfold Close, bind, call, ret.
  destruct (channel c) as [ch |], (conn c) as [cn |].
  - destruct (Channel_Close ch (broker w)) as [r1 b1]. cbn [broker trace].
    destruct (Connection_Close cn b1) as [r2 b2].
    exists r1, r2. eexists. split; [reflexivity |].
    cbn [trace]. now rewrite <- app_assoc.
  - destruct (Channel_Close ch (broker w)) as [r1 b1].
    exists r1, None. eexists. split; reflexivity.
  - destruct (Connection_Close cn (broker w)) as [r2 b2].
    exists None, r2. eexists. split; reflexivity.
  - exists None, None, w. split; [reflexivity |].
    now rewrite app_nil_r.
Qed.

Lemma closeTimes_keeps (n : nat) (c : Client) :
  forall w : World B, fst (closeTimes n c w) = (tt, c).
Proof.
  induction n as [| n IH]; intros w; cbn [closeTimes].
  - reflexivity.
  - unfold bind. destruct (Close_run c w) as (r1 & r2 & w' & E & _).
    rewrite E. cbn [snd]. apply IH.
Qed.

(** C9: [Close] releases the channel, then the connection, each only when
    the handle is there; whatever the two releases answer, it returns
    nothing and leaves the client as it was; so does any number of calls
    in a row, and on a client that never connected no call is made. *)
Theorem C9_close_is_best_effort (c : Client) (w : World B) :
  (exists r1 r2 w',
     Close c w = (tt, c, w') /\
     trace w' = trace w
       ++ match channel c with
          | Some ch => [EvChannelClose ch r1]
          | None => []
          end
       ++ match conn c with
          | Some cn => [EvConnectionClose cn r2]
          | None => []
          end)
  /\ (forall n, fst (closeTimes n c w) = (tt, c))
  /\ (conn c = None -> channel c = None ->
      forall n, closeTimes n c w = (tt, c, w)).
Proof.
  split; [apply Close_run | split].
  - intros n. apply closeTimes_keeps.
  - intros Hn Hc n. induction n as [| n IH]; cbn [closeTimes].
    + reflexivity.
    + unfold bind, Close, ret. rewrite Hn, Hc. cbn [snd]. exact IH.
Qed.

End SessionClaims.

(** ** The channel of a client from [NewClient] is never nil *)

Section ChannelInvariant.
Context {B : Type} `{Broker B} {Payload : Type} `{Json Payload}.

Lemma NewClient_channel (u q : string) (tls : option tls_Config)
    (w w0 : World B) (c : Client) :
  NewClient u q tls w = (Ok c, w0) ->
  channel c <> None /\ conn c <> None /\
  uri c = u /\ queue c = q /\ tlsCfg c = tls.
Proof.
  unfold NewClient, bind, ret.
  destruct (connect _ w) as [[[e |] c1] w1] eqn:E; intros E1;
    [discriminate |].
  injection E1 as <- <-.
  apply connect_success_handles in E. destruct E as (cn & ch & ->).
  cbn. repeat split; discriminate.
Qed.

Lemma reconnectLoop_keeps_channel
    (retry : Client -> World B -> outcome B (option error * Client)) :
  (forall c w, channel c <> None -> channel_kept snd (retry c w)) ->
  forall (n : nat) (b : Z) (c : Client) (w : World B),
    channel c <> None ->
    channel_kept snd (reconnectLoop retry n b c w).
Proof.
  intros Hretry. induction n as [| n IH]; intros b c w Hc;
    cbn [reconnectLoop].
  - exact Hc.
  - unfold sleep at 1.
    destruct (connect c _) as [[[e |] c1] w1] eqn:E;
      pose proof (connect_keeps_channel _ _ _ _ _ E Hc) as Hc1.
    + now apply IH.
    + now apply Hretry.
Qed.

Lemma PublishJSON_keeps_channel (fuel : nat) (payload : Payload) :
  forall (c : Client) (w : World B),
    channel c <> None ->
    channel_kept snd (PublishJSON fuel payload c w).
Proof.
  induction fuel as [| fuel IH]; intros c w Hc; cbn [PublishJSON].
  - exact I.
  - destruct (json_Marshal payload) as [body | err]; [| exact Hc].
    destruct (channel c) as [ch |] eqn:Ech; [| now elim Hc].
    destruct (transmit ch c body w) as [[e |] w1]; cbn [channel_kept snd];
      try (rewrite Ech; discriminate).
    destruct (errors_Is e ErrClosed).
    + apply reconnectLoop_keeps_channel; [exact IH |].
      rewrite Ech. discriminate.
    + cbn [channel_kept snd]. rewrite Ech. discriminate.
Qed.

Lemma runOp_keeps_channel (fuel : nat) (o : op Payload) (c : Client)
    (w : World B) :
  channel c <> None -> channel_kept (fun c' => c') (runOp fuel o c w).
Proof.
  intros Hc. destruct o as [p | p | |]; cbn [runOp].
  - pose proof (PublishJSON_keeps_channel fuel p c w Hc) as K.
    destruct (PublishJSON fuel p c w) as [[err c'] w' | w' |]; exact K.
  - pose proof (reconnectLoop_keeps_channel (PublishJSON fuel p)
                  (PublishJSON_keeps_channel fuel p) 5 time_Second c w Hc)
      as K.
    unfold reconnectWithBackoff.
    destruct (reconnectLoop _ _ _ _ _) as [[err c'] w' | w' |]; exact K.
  - destruct (connect c w) as [[r c'] w'] eqn:E. cbn [channel_kept].
    exact (connect_keeps_channel _ _ _ _ _ E Hc).
  - destruct (Close_run c w) as (r1 & r2 & w' & E & _). rewrite E.
    exact Hc.
Qed.

Lemma runOps_keeps_channel (fuel : nat) (ops : list (op Payload)) :
  forall (c : Client) (w : World B),
    channel c <> None -> channel_kept (fun c' => c') (runOps fuel ops c w).
Proof.
  induction ops as [| o ops IH]; intros c w Hc; cbn [runOps].
  - exact Hc.
  - pose proof (runOp_keeps_channel fuel o c w Hc) as K.
    destruct (runOp fuel o c w) as [c' w' | w' |]; cbn [channel_kept] in K.
    + now apply IH.
    + contradiction.
    + exact I.
Qed.

(** C10: the client [NewClient] gives out has a channel (and a
    connection); [connect] leaves a client as it was when a step fails
    and [Close] always does; so after any sequence of [PublishJSON],
    [reconnectWithBackoff], [connect] and [Close] on that client the
    channel is still there and no call has panicked: the transmission of
    [PublishJSON] is never a call on a nil channel. *)
Theorem C10_channel_never_nil (u q : string) (tls : option tls_Config)
    (w w0 : World B) (c : Client) :
  NewClient u q tls w = (Ok c, w0) ->
  channel c <> None
  /\ (forall c1 c2 (w1 w2 : World B) e,
        connect c1 w1 = (Some e, c2, w2) -> c2 = c1)
  /\ (forall c1 (w1 : World B), snd (fst (Close c1 w1)) = c1)
  /\ (forall fuel (ops : list (op Payload)),
        match runOps fuel ops c w0 with
        | Returned c' _ => channel c' <> None
        | Panicked _ => False
        | OutOfFuel => True
        end).
Proof.
  intros E. apply NewClient_channel in E. destruct E as (Hc & _).
  repeat split.
  - exact Hc.
  - intros c1 c2 w1 w2 e. apply connect_failure_keeps.
  - intros c1 w1. destruct (Close_run c1 w1) as (r1 & r2 & w' & E & _).
    now rewrite E.
  - intros fuel ops. exact (runOps_keeps_channel fuel ops c w0 Hc).
Qed.

End ChannelInvariant.

(** ** The transport-security settings *)

Section TLSClaims.

(** C5 (amended): with security disabled [LoadTLSConfig] gives no
    configuration and no error, whatever the mutual-authentication flag
    and the files; with security enabled it fails when mutual
    authentication is enabled and the client key pair does not load,
    fails when the CA certificate cannot be read or holds no certificate,
    and otherwise gives a configuration with the CA pool, the minimum
    version TLS 1.2 and, under mutual authentication, the client
    certificate. *)
Theorem C5_tls_settings (fs : Files) (useTLS useMTLS : bool) :
  (useTLS = false -> LoadTLSConfig fs useTLS useMTLS = (None, None))
  /\ (useTLS = true ->
      (useMTLS = true ->
       forall e,
         tls_LoadX509KeyPair fs "/etc/certs/client.crt"
           "/etc/certs/client.key" = Err e ->
         LoadTLSConfig fs useTLS useMTLS
         = (None, Some (Errorf_w "failed to load client certs" e)))
      /\ (forall e,
            os_ReadFile fs "/etc/certs/ca.crt" = Err e ->
            exists e', LoadTLSConfig fs useTLS useMTLS = (None, Some e'))
      /\ (forall pem,
            os_ReadFile fs "/etc/certs/ca.crt" = Ok pem ->
            snd (AppendCertsFromPEM fs x509_NewCertPool pem) = false ->
            exists e', LoadTLSConfig fs useTLS useMTLS = (None, Some e'))
      /\ (snd (LoadTLSConfig fs useTLS useMTLS) = None ->
          exists cfg pool,
            LoadTLSConfig fs useTLS useMTLS = (Some cfg, None) /\
            MinVersion cfg = VersionTLS12 /\
            RootCAs cfg = Some pool /\
            (if useMTLS
             then exists cert,
                 tls_LoadX509KeyPair fs "/etc/certs/client.crt"
                   "/etc/certs/client.key" = Ok cert /\
                 Certificates cfg = [cert]
             else Certificates cfg = []))).
Proof.
  split; [intros ->; reflexivity |].
  intros ->. unfold LoadTLSConfig. cbn [negb].
  repeat split.
  - intros -> e ->. reflexivity.
  - intros e E. rewrite E.
    destruct useMTLS; [destruct (tls_LoadX509KeyPair _ _ _) |];
      eexists; reflexivity.
  - intros pem E Hno. rewrite E.
    destruct (AppendCertsFromPEM fs x509_NewCertPool pem) as [pool ok].
    cbn [snd] in Hno. subst ok. cbn [negb].
    destruct useMTLS; [destruct (tls_LoadX509KeyPair _ _ _) |];
      eexists; reflexivity.
  - destruct useMTLS.
    + destruct (tls_LoadX509KeyPair _ _ _) as [cert | e];
        [| discriminate].
      destruct (os_ReadFile fs _) as [pem | e]; [| discriminate].
      destruct (AppendCertsFromPEM fs x509_NewCertPool pem) as [pool [|]];
        cbn [negb snd]; [| discriminate].
      intros _. eexists; exists pool. repeat split. now exists cert.
    + destruct (os_ReadFile fs _) as [pem | e]; [| discriminate].
      destruct (AppendCertsFromPEM fs x509_NewCertPool pem) as [pool [|]];
        cbn [negb snd]; [| discriminate].
      intros _. eexists; exists pool. repeat split.
Qed.

End TLSClaims.

(** ** The start of [main] and the fan-out of a tick *)

Section MainClaims.
Context {B : Type} `{Broker B}.

Lemma NewClient_trace (u q : string) (tls : option tls_Config)
    (w : World B) :
  exists tr,
    trace (snd (NewClient u q tls w)) = trace w ++ tr /\
    dials tr = [u] /\ logs tr = [].
Proof.
  unfold NewClient, bind, ret.
  destruct (connect_trace
              {| conn := None; channel := None; queue := q; uri := u;
                 tlsCfg := tls |} w)
    as (tr & T & _ & D & _ & _ & _ & L).
  destruct (connect _ w) as [[[e |] c1] w1]; cbn [snd] in *;
    exists tr; auto.
Qed.

Lemma register_step (nm warning u q : string) (tls : option tls_Config)
    (cs : list clientRef) (w : World B) :
  endpoint_step nm warning u q tls cs w
    (fst (register nm warning u q tls cs w))
    (snd (register nm warning u q tls cs w)).
Proof.
  unfold register.
  destruct (String.eqb_spec u "") as [-> | Hu].
  - cbn. now constructor.
  - unfold bind, logPrintf, ret.
    destruct (NewClient u q tls w) as [[cl | e] w'] eqn:E; cbn [fst snd].
    + now apply endpoint_registered.
    + now apply endpoint_warned.
Qed.

(** What an endpoint adds: one dial when its URI is not empty, and then
    one client or one warning. *)
Lemma endpoint_step_trace (nm warning u q : string)
    (tls : option tls_Config) (cs cs' : list clientRef) (w w' : World B) :
  endpoint_step nm warning u q tls cs w cs' w' ->
  exists tr reg,
    trace w' = trace w ++ tr /\ cs' = cs ++ reg /\
    dials tr = filter nonempty [u] /\
    (List.length reg + List.length (logs tr)
 = List.length (filter nonempty [u]))%nat /\
    Forall (fun r => name r = nm /\ uri (client r) = u /\
                     queue (client r) = q /\ tlsCfg (client r) = tls /\
                     channel (client r) <> None /\
                     conn (client r) <> None) reg.
Proof.
  intros [-> | cl w1 Hu E | e w1 Hu E].
  - exists [], []. rewrite !app_nil_r. repeat split. constructor.
  - destruct (NewClient_trace u q tls w) as (tr & T & D & L).
    rewrite E in T. cbn [snd] in T.
    apply NewClient_channel in E. destruct E as (? & ? & ? & ? & ?).
    exists tr; eexists. split; [exact T | split; [reflexivity |]].
    unfold nonempty. cbn [filter].
    destruct (String.eqb_spec u ""); [contradiction |]. cbn [negb].
    rewrite L, D. repeat split. now repeat constructor.
  - destruct (NewClient_trace u q tls w) as (tr & T & D & L).
    rewrite E in T. cbn [snd] in T.
    exists (tr ++ [EvLogPrintf warning None e]), [].
    cbn [trace]. rewrite T, app_assoc, app_nil_r.
    split; [reflexivity | split; [reflexivity |]].
    unfold nonempty. cbn [filter].
    destruct (String.eqb_spec u ""); [contradiction |]. cbn [negb].
    autorewrite with trace. rewrite L, D. repeat split. constructor.
Qed.

(** C8: the start of [main] takes the local endpoint, then the remote
    one, each as [endpoint_step] says (skipped when the URI is empty,
    else one [NewClient], registered or warned about), the remote one
    whatever became of the local one; the URIs dialled are the nonempty
    ones, in that order, and each of them gave a client or a warning; the
    registered clients are connected.  It ends in [log.Fatal] exactly
    when no client is registered, and enters the loop with the registered
    ones otherwise. *)
Theorem C8_startup_registration (l r q : string)
    (tls : option tls_Config) (w : World B) :
  exists cs1 w1 clients w' tr,
    endpoint_step "local" "Local RabbitMQ connection failed: %v"
      l q tls [] w cs1 w1 /\
    endpoint_step "remote" "Remote RabbitMQ connection failed: %v"
      r q tls cs1 w1 clients w' /\
    registerClients l r q tls w = (clients, w') /\
    start l r q tls w
    = (match clients with
       | [] => Fatal "No RabbitMQ connections available"
       | _ :: _ => Started clients
       end, w') /\
    (fst (start l r q tls w) = Fatal "No RabbitMQ connections available"
     <-> clients = []) /\
    trace w' = trace w ++ tr /\
    dials tr = filter nonempty [l; r] /\
    (List.length clients + List.length (logs tr)
     = List.length (filter nonempty [l; r]))%nat /\
    Forall (fun c => channel (client c) <> None /\
                     conn (client c) <> None) clients.
Proof.
  pose proof (register_step "local" "Local RabbitMQ connection failed: %v"
                l q tls [] w) as S1.
  destruct (register "local" _ l q tls [] w) as [cs1 w1] eqn:E1.
  pose proof (register_step "remote"
                "Remote RabbitMQ connection failed: %v" r q tls cs1 w1)
    as S2.
  destruct (register "remote" _ r q tls cs1 w1) as [clients w'] eqn:E2.
  cbn [fst snd] in S1, S2.
  assert (ER : registerClients l r q tls w = (clients, w'))
    by (unfold registerClients, bind; now rewrite E1, E2).
  assert (ES : start l r q tls w
               = (match clients with
                  | [] => Fatal "No RabbitMQ connections available"
                  | _ :: _ => Started clients
                  end, w'))
    by (unfold start, bind, ret; rewrite ER; now destruct clients).
  destruct (endpoint_step_trace _ _ _ _ _ _ _ _ _ S1)
    as (tr1 & reg1 & T1 & R1 & D1 & N1 & F1).
  destruct (endpoint_step_trace _ _ _ _ _ _ _ _ _ S2)
    as (tr2 & reg2 & T2 & R2 & D2 & N2 & F2).
  exists cs1, w1, clients, w', (tr1 ++ tr2).
  repeat match goal with |- _ /\ _ => split end; auto.
  - rewrite ES. cbn [fst]. destruct clients; split; congruence.
  - now rewrite T2, T1, app_assoc.
  - autorewrite with trace. rewrite D1, D2. cbn [filter].
    destruct (nonempty l), (nonempty r); reflexivity.
  - autorewrite with trace. subst clients cs1. cbn [app].
    rewrite !length_app.
    replace (List.length (filter nonempty [l; r]))
      with (List.length (filter nonempty [l])
        + List.length (filter nonempty [r]))%nat
      by (cbn [filter]; destruct (nonempty l), (nonempty r); reflexivity).
    lia.
  - subst clients cs1. cbn [app]. apply Forall_app. split.
    + eapply Forall_impl; [| exact F1]. cbn. tauto.
    + eapply Forall_impl; [| exact F2]. cbn. tauto.
Qed.

Section Fanout.
Context {Payload : Type} `{Json Payload}.

Lemma publishAll_names (fuel : nat) (msg : Payload) :
  forall (clients clients' : list clientRef) (w w' : World B),
    publishAll fuel msg clients w = Returned clients' w' ->
    map name clients' = map name clients.
Proof.
  induction clients as [| c rest IH]; intros clients' w w' E;
    cbn [publishAll] in E.
  - now injection E as <- <-.
  - destruct (PublishJSON fuel msg (client c) w) as [[err cl] w1 | |];
      try discriminate.
    destruct (reportFailure (name c) err w1) as [u w2].
    destruct (publishAll fuel msg rest w2) as [rest' w3 | |] eqn:E';
      try discriminate.
    injection E as <- <-. cbn [map name]. f_equal. eauto.
Qed.




End Fanout.
End MainClaims.

(** * Concrete runs on the scripted broker *)


Section Witnesses.
Import Scenario.

Lemma C1_witness :
  exists w1 w5,
    json_Marshal reading = Ok body /\
    channel session = Some 8%nat /\
    transmit 8%nat session body closed_and_down = (Some ErrClosed, w1) /\
    errors_Is ErrClosed ErrClosed = true /\
    failedRounds (map seconds [1; 2; 4; 8; 16]) session w1 = Some w5 /\
    PublishJSON 1 reading session closed_and_down
    = Returned (Some (ErrorNew "unable to reconnect to RabbitMQ"), session)
        w5 /\
    sleeps (trace w5)
    = [1000000000; 2000000000; 4000000000; 8000000000; 16000000000] /\
    sends (trace w5) = [(8%nat, body, Some ErrClosed)].
Proof.
  do 2 eexists.
  split; [reflexivity |]. split; [reflexivity |].
  split; [vm_compute; reflexivity |]. split; [reflexivity |].
  split; [vm_compute; reflexivity |].
  split; [| split; vm_compute; reflexivity].
  eapply (C1_retries_exhausted 0 reading body session 8%nat
            closed_and_down);
    vm_compute; reflexivity.
Defined.

Lemma C2_witness :
  exists w1 wk c' w' w2,
    json_Marshal reading = Ok body /\
    channel session = Some 8%nat /\
    transmit 8%nat session body closed_then_back = (Some ErrClosed, w1) /\
    errors_Is ErrClosed ErrClosed = true /\
    (1 <= 3 <= 5)%nat /\
    failedRounds (map seconds (firstn (3 - 1) [1; 2; 4; 8; 16])) session w1
      = Some wk /\
    connect session (snd (sleep (seconds (2 ^ Z.of_nat (3 - 1))) wk))
      = (None, c', w') /\
    PublishJSON 2 reading session closed_then_back = Returned (None, c') w2 /\
    channel c' = Some 11%nat /\
    sleeps (trace w') = [1000000000; 2000000000; 4000000000] /\
    sends (trace w2)
    = [(8%nat, body, Some ErrClosed); (11%nat, body, None)].
Proof.
  assert (H3 : transmit 8%nat session body closed_then_back
               = (Some ErrClosed,
                  snd (transmit 8%nat session body closed_then_back)))
    by (vm_compute; reflexivity).
  set (w1 := snd (transmit 8%nat session body closed_then_back)) in *.
  assert (H5 : (1 <= 3 <= 5)%nat) by lia.
  destruct (failedRounds (map seconds (firstn (3 - 1) [1; 2; 4; 8; 16]))
              session w1) as [wk |] eqn:H6;
    [| vm_compute in H6; discriminate].
  destruct (connect session
              (snd (sleep (seconds (2 ^ Z.of_nat (3 - 1))) wk)))
    as [[[e |] c'] w'] eqn:H7.
  { vm_compute in H6. injection H6 as <-. vm_compute in H7. discriminate. }
  assert (H1 : json_Marshal reading = Ok body) by reflexivity.
  assert (H2 : channel session = Some 8%nat) by reflexivity.
  assert (H4 : errors_Is ErrClosed ErrClosed = true) by reflexivity.
  destruct (C2_reconnected_publishes_again 0 reading body session c' 8%nat 3
              closed_then_back w1 wk w' ErrClosed H1 H2 H3 H4 H5 H6 H7)
    as (_ & _ & ch' & r2 & w2 & Hc' & _ & Ht2 & _ & Run).
  vm_compute in H6. injection H6 as <-.
  vm_compute in H7. injection H7 as <- <-.
  vm_compute in Hc'. injection Hc' as <-.
  vm_compute in Ht2. injection Ht2 as <- <-.
  cbv beta iota in Run.
  do 5 eexists.
  split; [reflexivity |]. split; [reflexivity |].
  split; [exact H3 |]. split; [reflexivity |]. split; [exact H5 |].
  split; [vm_compute; reflexivity |].
  split; [vm_compute; reflexivity |].
  split; [exact Run |].
  repeat split; vm_compute; reflexivity.
Defined.

Lemma C3_witness :
  json_Marshal Unsupported = Err (ErrorNew "json: unsupported value") /\
  PublishJSON 1 Unsupported fresh closed_and_down
  = Returned (Some (ErrorNew "json: unsupported value"), fresh)
      closed_and_down.
Proof.
  split; [reflexivity |].
  apply (C3_marshal_error_is_immediate 0 Unsupported fresh closed_and_down).
  reflexivity.
Defined.

Lemma C4_witness :
  exists w1,
    json_Marshal reading = Ok body /\
    channel session = Some 8%nat /\
    transmit 8%nat session body refusing
    = (Some (ErrorNew "content too large"), w1) /\
    errors_Is (ErrorNew "content too large") ErrClosed = false /\
    PublishJSON 1 reading session refusing
    = Returned (Some (ErrorNew "content too large"), session) w1 /\
    steps (trace w1) = [Send].
Proof.
  eexists.
  split; [reflexivity |]. split; [reflexivity |].
  split; [vm_compute; reflexivity |]. split; [reflexivity |].
  edestruct (C4_other_errors_are_returned 0 reading body session 8%nat
               refusing) as (E & _ & S);
    [reflexivity | reflexivity | vm_compute; reflexivity | reflexivity |].
  split; [exact E | exact S].
Defined.

(** C5, as the claim has it, fails: with security disabled and mutual
    authentication enabled, the client key pair does not load and
    [LoadTLSConfig] still succeeds (it gives no configuration and no
    error). *)
Lemma C5_mtls_without_tls_counterexample :
  tls_LoadX509KeyPair files_no_client_cert "/etc/certs/client.crt"
    "/etc/certs/client.key" = Err (ErrorNew "no such file") /\
  LoadTLSConfig files_no_client_cert false true = (None, None).
Proof. split; reflexivity. Qed.

Lemma C5_witness :
  true = true /\
  (exists cfg,
     LoadTLSConfig files_ok true true = (Some cfg, None) /\
     MinVersion cfg = 771 /\
     Certificates cfg = [[Byte.x01]]) /\
  LoadTLSConfig files_no_client_cert true true
  = (None, Some (Errorf_w "failed to load client certs"
                   (ErrorNew "no such file"))) /\
  LoadTLSConfig files_no_client_cert false true = (None, None).
Proof.
  split; [reflexivity |]. split; [| split].
  - destruct (C5_tls_settings files_ok true true) as (_ & K).
    destruct (K eq_refl) as (_ & _ & _ & K').
    destruct (K' eq_refl) as (cfg & pool & E & M & _ & cert & L & C).
    exists cfg. injection L as <-. auto.
  - destruct (C5_tls_settings files_no_client_cert true true) as (_ & K).
    destruct (K eq_refl) as (K' & _).
    exact (K' eq_refl _ eq_refl).
  - destruct (C5_tls_settings files_no_client_cert false true) as (K & _).
    exact (K eq_refl).
Defined.

(** C6, counterexample: a client bound to a TLS configuration whose URI
    has the scheme amqp connects through [amqp.DialTLS], which dials in
    plaintext; a client bound to none whose URI has the scheme amqps
    connects through [amqp.Dial], which dials with TLS. *)
Lemma C6_transport_follows_the_URI_counterexample :
  (tlsCfg secured = Some tls12 /\
   fst (connect secured up_once) = (None, set_handles secured 1%nat 2%nat) /\
   trace (snd (connect secured up_once))
   = [EvDialTLS "amqp://local" tls12 (Ok 1%nat); EvChannel 1%nat (Ok 2%nat);
      EvQueueDeclare 2%nat "temp" true false false false None None] /\
   wire (trace (snd (connect secured up_once))) = [Some uri.Plaintext]) /\
  (tlsCfg unsecured = None /\
   fst (connect unsecured up_once)
   = (None, set_handles unsecured 1%nat 2%nat) /\
   trace (snd (connect unsecured up_once))
   = [EvDial "amqps://remote" (Ok 1%nat); EvChannel 1%nat (Ok 2%nat);
      EvQueueDeclare 2%nat "temp" true false false false None None] /\
   wire (trace (snd (connect unsecured up_once))) = [Some uri.TLS]).
Proof.
  repeat split; vm_compute; reflexivity.
Qed.


Lemma C9_witness :
  conn fresh = None /\ channel fresh = None /\
  closeTimes 3 fresh closed_and_down = (tt, fresh, closed_and_down) /\
  fst (closeTimes 2 session closed_and_down) = (tt, session).
Proof.
  split; [reflexivity |]. split; [reflexivity |].
  destruct (C9_close_is_best_effort fresh closed_and_down)
    as (_ & _ & K).
  destruct (C9_close_is_best_effort session closed_and_down)
    as (_ & K' & _).
  split; [exact (K eq_refl eq_refl 3%nat) | exact (K' 2%nat)].
Defined.

Lemma C10_witness :
  exists c w0,
    NewClient "amqp://local" "temp" None up_once = (Ok c, w0) /\
    channel c = Some 2%nat /\
    match runOps 3 [OpPublishJSON reading; OpClose; OpPublishJSON reading;
                    OpConnect; OpPublishJSON Unsupported] c w0 with
    | Returned c' _ => channel c' <> None
    | Panicked _ => False
    | OutOfFuel => True
    end.
Proof.
  do 2 eexists.
  split; [vm_compute; reflexivity |]. split; [reflexivity |].
  edestruct (C10_channel_never_nil (Payload := message) "amqp://local"
               "temp" None up_once) as (_ & _ & _ & K);
    [vm_compute; reflexivity |].
  exact (K 3%nat [OpPublishJSON reading; OpClose; OpPublishJSON reading;
                  OpConnect; OpPublishJSON Unsupported]).
Defined.

End Witnesses.

(** * Further properties of the session *)

Section ObservedFacts.

Lemma plain_dials_app (a b : list event) :
  Dial_calls (a ++ b) = Dial_calls a ++ Dial_calls b.
Proof.
  induction a as [| [] a IH]; simpl; rewrite ?IH; reflexivity.
Qed.

Lemma tls_dials_app (a b : list event) :
  DialTLS_calls (a ++ b) = DialTLS_calls a ++ DialTLS_calls b.
Proof.
  induction a as [| [] a IH]; simpl; rewrite ?IH; reflexivity.
Qed.

Lemma wire_app (a b : list event) : wire (a ++ b) = wire a ++ wire b.
Proof.
  induction a as [| [] a IH]; simpl; rewrite ?IH; reflexivity.
Qed.

Lemma wire_dials (tr : list event) :
  wire tr = map uri.transport_of (dials tr).
Proof.
  induction tr as [| [] tr IH]; simpl; rewrite ?IH; reflexivity.
Qed.

Lemma accepted_app (a b : list event) :
  accepted (a ++ b) = accepted a ++ accepted b.
Proof.
  unfold accepted. now rewrite sends_app, filter_app.
Qed.

Lemma same_config_refl (c : Client) : same_config c c.
Proof. now repeat split. Qed.

Lemma same_config_trans (a b c : Client) :
  same_config a b -> same_config b c -> same_config a c.
Proof.
  unfold same_config. intros (-> & -> & ->) (-> & -> & ->). now repeat split.
Qed.

Lemma reconnect_event_config (c c' : Client) (ev : event) :
  same_config c c' -> reconnect_event c' ev -> reconnect_event c ev.
Proof.
  intros (Hu & Hq & Ht). destruct ev; cbn; rewrite ?Hu, ?Hq, ?Ht; auto.
Qed.

Lemma publish_event_config (c c' : Client) (body : bytes) (ev : event) :
  same_config c c' -> publish_event c' body ev -> publish_event c body ev.
Proof.
  intros (Hu & Hq & Ht). destruct ev; cbn; rewrite ?Hu, ?Hq, ?Ht; auto.
Qed.

Lemma session_event_config (c c' : Client) (ev : event) :
  same_config c c' -> session_event c' ev -> session_event c ev.
Proof.
  intros (Hu & Hq & Ht). destruct ev; cbn; rewrite ?Hu, ?Hq, ?Ht; auto.
Qed.

Lemma reconnect_is_publish_event (c : Client) (body : bytes) (ev : event) :
  reconnect_event c ev -> publish_event c body ev.
Proof. destruct ev; cbn; tauto. Qed.

Lemma publish_is_session_event (c : Client) (body : bytes) (ev : event) :
  publish_event c body ev -> session_event c ev.
Proof.
  destruct ev; cbn; try tauto.
  intros (-> & -> & -> & -> & ->). now repeat split.
Qed.

(** Reconnect rounds transmit nothing, release nothing, log nothing. *)
Lemma reconnect_events_quiet (c : Client) (tr : list event) :
  Forall (reconnect_event c) tr ->
  sends tr = [] /\ closes tr = [] /\ logs tr = [] /\ accepted tr = [].
Proof.
  unfold accepted.
  induction 1 as [| ev tr Hev _ (IHs & IHc & IHl & IHa)];
    [now repeat split |].
  destruct ev; cbn in Hev |- *; try contradiction; rewrite ?IHs; auto.
Qed.

End ObservedFacts.

#[local] Hint Rewrite plain_dials_app tls_dials_app accepted_app : trace.

Section SessionRuns.
Context {B : Type} `{Broker B}.

Lemma connect_same_config (c c' : Client) (w w' : World B)
    (r : option error) :
  connect c w = (r, c', w') -> same_config c c'.
Proof.
  intros E. destruct r as [e |].
  - apply connect_failure_keeps in E. subst. apply same_config_refl.
  - apply connect_success_handles in E. destruct E as (cn & ch & ->).
    now repeat split.
Qed.

Lemma connect_events (c : Client) (w : World B) :
  exists tr,
    trace (snd (connect c w)) = trace w ++ tr /\
    Forall (reconnect_event c) tr.
Proof.
  pose proof (connect_runs c w) as R.
  inversion R; subst;
    repeat match goal with
           | D : dial_call _ _ _ _ _ |- _ => inversion D; subst; clear D
           end;
    cbn [snd trace]; eexists; (split; [reflexivity |]);
    repeat constructor; cbn; auto.
Qed.

(** The loop of [reconnectWithBackoff] either gives up, or hands over to
    the retry with a reconnected client; up to there it has only slept and
    connected. *)
Lemma reconnectLoop_cases
    (retry : Client -> World B -> outcome B (option error * Client))
    (n : nat) :
  forall (b : Z) (c : Client) (w : World B),
    (exists w' tr,
       reconnectLoop retry n b c w = Returned (Some exhausted, c) w' /\
       trace w' = trace w ++ tr /\ Forall (reconnect_event c) tr)
    \/ (exists c1 w1 tr,
          reconnectLoop retry n b c w = retry c1 w1 /\
          trace w1 = trace w ++ tr /\ Forall (reconnect_event c) tr /\
          tr <> [] /\
          same_config c c1 /\ channel c1 <> None /\ conn c1 <> None).
Proof.
  induction n as [| n IH]; intros b c w; cbn [reconnectLoop].
  - left. exists w, []. rewrite app_nil_r. now repeat split.
  - unfold sleep. cbv beta iota.
    set (ws := {| broker := time_Sleep b (broker w);
                  trace := trace w ++ [EvSleep b] |}).
    destruct (connect_events c ws) as (tr1 & T1 & F1).
    destruct (connect c ws) as [[[e |] c1] w1] eqn:E; cbn [snd] in T1.
    + apply connect_failure_keeps in E. subst c1.
      destruct (IH (int64 (b * 2)) c w1)
        as [(w' & tr & -> & T & F) | (c2 & w2 & tr & -> & T & F & N & K)].
      * left. exists w', (EvSleep b :: tr1 ++ tr).
        split; [reflexivity | split].
        -- rewrite T, T1. subst ws. cbn [trace].
           now rewrite <- !app_assoc.
        -- constructor; [exact I | now apply Forall_app].
      * right. exists c2, w2, (EvSleep b :: tr1 ++ tr).
        split; [reflexivity | split; [| split; [| split]]].
        -- rewrite T, T1. subst ws. cbn [trace].
           now rewrite <- !app_assoc.
        -- constructor; [exact I | now apply Forall_app].
        -- discriminate.
        -- exact K.
    + right. exists c1, w1, (EvSleep b :: tr1).
      split; [reflexivity | split; [| split; [| split; [| split]]]].
      * rewrite T1. subst ws. cbn [trace]. now rewrite <- app_assoc.
      * now constructor.
      * discriminate.
      * exact (connect_same_config _ _ _ _ _ E).
      * apply connect_success_handles in E. destruct E as (cn & ch & ->).
        split; discriminate.
Qed.

End SessionRuns.

Section PublishRuns.
Context {B : Type} `{Broker B} {Payload : Type} `{Json Payload}.

(** What a call of [PublishJSON] that returns has done. *)
Lemma PublishJSON_run (payload : Payload) (body : bytes) :
  json_Marshal payload = Ok body ->
  forall (fuel : nat) (c c' : Client) (w w' : World B) (r : option error),
    PublishJSON fuel payload c w = Returned (r, c') w' ->
    same_config c c' /\
    exists tr,
      trace w' = trace w ++ tr /\
      Forall (publish_event c body) tr /\
      match r with
      | None =>
        exists tr0 ch,
          tr = tr0 ++
               [EvPublish ch "" (queue c) false false
                  {| ContentType := "application/json"; Body := body |}
                  None] /\
          accepted tr0 = []
      | Some _ => accepted tr = []
      end.
Proof.
  intros Hm. induction fuel as [| fuel IH]; intros c c' w w' r E;
    cbn [PublishJSON] in E; [discriminate |].
  rewrite Hm in E.
  destruct (channel c) as [ch |]; [| discriminate].
  destruct (transmit ch c body w) as [err w1] eqn:Et.
  pose proof (transmit_trace ch c body w w1 err Et) as T1.
  assert (Hpub : publish_event c body
                   (EvPublish ch "" (queue c) false false
                      {| ContentType := "application/json"; Body := body |}
                      err))
    by (cbn; now repeat split).
  destruct err as [e |].
  - destruct (errors_Is e ErrClosed).
    + destruct (reconnectLoop_cases (PublishJSON fuel payload) 5
                  time_Second c w1)
        as [(w2 & tr & E2 & T & F) | (c1 & w2 & tr & E2 & T & F & _ & K & _)];
        rewrite E2 in E.
      * injection E as <- <- <-. split; [apply same_config_refl |].
        eexists. split; [rewrite T, T1, <- app_assoc; reflexivity |].
        split.
        -- constructor; [exact Hpub |].
           eapply Forall_impl; [| exact F].
           intros ev. apply reconnect_is_publish_event.
        -- cbn [app]. change (accepted (?x :: ?l)) with (accepted ([x] ++ l)).
           rewrite accepted_app.
           now destruct (reconnect_events_quiet c tr F) as (_ & _ & _ & ->).
      * apply IH in E. destruct E as (K2 & tr2 & T2 & F2 & R2).
        split; [exact (same_config_trans _ _ _ K K2) |].
        exists ((EvPublish ch "" (queue c) false false
                   {| ContentType := "application/json"; Body := body |}
                   (Some e) :: tr) ++ tr2).
        split; [rewrite T2, T, T1, <- !app_assoc; reflexivity |].
        assert (A0 : accepted
                       (EvPublish ch "" (queue c) false false
                          {| ContentType := "application/json";
                             Body := body |} (Some e) :: tr) = []).
        { change (accepted (?x :: ?l)) with (accepted ([x] ++ l)).
          rewrite accepted_app.
          now destruct (reconnect_events_quiet c tr F) as (_ & _ & _ & ->). }
        split.
        -- apply Forall_app. split.
           ++ constructor; [exact Hpub |].
              eapply Forall_impl; [| exact F].
              intros ev. apply reconnect_is_publish_event.
           ++ eapply Forall_impl; [| exact F2].
              intros ev. now apply publish_event_config.
        -- destruct r as [e' |].
           ++ now rewrite accepted_app, A0, R2.
           ++ destruct R2 as (tr0 & ch' & -> & A).
              destruct K as (_ & Kq & _). rewrite Kq.
              eexists; exists ch'. rewrite app_assoc.
              split; [reflexivity |].
              now rewrite accepted_app, A0, A.
    + injection E as <- <- <-. split; [apply same_config_refl |].
      eexists. split; [exact T1 |]. split; [now constructor | reflexivity].
  - injection E as <- <- <-. split; [apply same_config_refl |].
    eexists. split; [exact T1 |]. split; [now constructor |].
    now exists [], ch.
Qed.

End PublishRuns.
Section PublishProperties.
Context {B : Type} `{Broker B} {Payload : Type} `{Json Payload}.

Lemma publish_events_quiet (c : Client) (body : bytes) (tr : list event) :
  Forall (publish_event c body) tr -> closes tr = [] /\ logs tr = [].
Proof.
  induction 1 as [| ev tr Hev _ (IHc & IHl)]; [now split |].
  destruct ev; cbn in Hev |- *; try contradiction; auto.
Qed.

Lemma PublishJSON_unencodable (fuel : nat) (payload : Payload) (err : error)
    (c c' : Client) (w w' : World B) (r : option error) :
  json_Marshal payload = Err err ->
  PublishJSON fuel payload c w = Returned (r, c') w' ->
  r = Some err /\ c' = c /\ w' = w.
Proof.
  intros Hm E. destruct fuel as [| fuel]; cbn [PublishJSON] in E;
    [discriminate |].
  rewrite Hm in E. injection E as <- <- <-. now repeat split.
Qed.

(** X1: a call of [PublishJSON] that returns nil has had exactly one
    transmission accepted by the broker, and that is the last call it
    made; a call that returns an error has had none accepted. *)
Theorem PublishJSON_accepted_at_most_once (fuel : nat) (payload : Payload)
    (c c' : Client) (w w' : World B) (r : option error) :
  PublishJSON fuel payload c w = Returned (r, c') w' ->
  exists tr,
    trace w' = trace w ++ tr /\
    match r with
    | None =>
      exists tr0 ch body,
        json_Marshal payload = Ok body /\
        tr = tr0 ++
             [EvPublish ch "" (queue c) false false
                {| ContentType := "application/json"; Body := body |} None] /\
        accepted tr0 = [] /\
        accepted tr = [(ch, body, None)]
    | Some _ => accepted tr = []
    end.
Proof.
  intros E. destruct (json_Marshal payload) as [body | err] eqn:Hm.
  - destruct (PublishJSON_run payload body Hm fuel c c' w w' r E)
      as (_ & tr & T & _ & R).
    exists tr. split; [exact T |].
    destruct r as [e |]; [exact R |].
    destruct R as (tr0 & ch & -> & A).
    exists tr0, ch, body. repeat split; auto.
    now rewrite accepted_app, A.
  - destruct (PublishJSON_unencodable fuel payload err c c' w w' r Hm E)
      as (-> & _ & ->).
    exists []. now rewrite app_nil_r.
Qed.

(** X2: whatever the broker answers, every call a returning
    [PublishJSON] makes is a sleep, a dial of the client's URI over its
    configured transport, a channel opening, the declaration of its queue
    (durable, nothing else), or the transmission of the encoded payload,
    as [application/json], to the client's queue on the default exchange
    with both flags off. *)
Theorem PublishJSON_only_sends_the_payload (fuel : nat) (payload : Payload)
    (body : bytes) (c c' : Client) (w w' : World B) (r : option error) :
  json_Marshal payload = Ok body ->
  PublishJSON fuel payload c w = Returned (r, c') w' ->
  exists tr,
    trace w' = trace w ++ tr /\
    Forall (publish_event c body) tr /\
    Forall (fun s => snd (fst s) = body) (sends tr).
Proof.
  intros Hm E.
  destruct (PublishJSON_run payload body Hm fuel c c' w w' r E)
    as (_ & tr & T & F & _).
  exists tr. repeat split; auto.
  clear - F. induction F as [| ev tr Hev _ IH]; [constructor |].
  destruct ev; cbn [sends]; auto.
  constructor; [| exact IH].
  cbn in Hev |- *. now destruct Hev as (_ & _ & _ & _ & ->).
Qed.

(** X3: a returning [PublishJSON] releases no handle and logs nothing,
    however many times it reconnected: the handles it replaces are left
    open; and it leaves the client's URI, queue and TLS configuration as
    they were. *)
Theorem PublishJSON_releases_nothing (fuel : nat) (payload : Payload)
    (c c' : Client) (w w' : World B) (r : option error) :
  PublishJSON fuel payload c w = Returned (r, c') w' ->
  same_config c c' /\
  exists tr,
    trace w' = trace w ++ tr /\ closes tr = [] /\ logs tr = [] /\
    (List.length (dials tr) <= 5 * List.length (sends tr))%nat.
Proof.
  intros E. destruct (json_Marshal payload) as [body | err] eqn:Hm.
  - revert c c' w w' r E.
    induction fuel as [| fuel IH]; intros c c' w w' r E;
      cbn [PublishJSON] in E; [discriminate |].
    rewrite Hm in E.
    destruct (channel c) as [ch |]; [| discriminate].
    destruct (transmit ch c body w) as [err w1] eqn:Et.
    pose proof (transmit_trace ch c body w w1 err Et) as T1.
    assert (Base : Returned (err, c) w1 = Returned (r, c') w' ->
                   same_config c c' /\
                   exists tr,
                     trace w' = trace w ++ tr /\ closes tr = [] /\
                     logs tr = [] /\
                     (List.length (dials tr)
                      <= 5 * List.length (sends tr))%nat).
    { intros E'. injection E' as <- <- <-. split; [apply same_config_refl |].
      eexists. split; [exact T1 |]. cbn. repeat split; lia. }
    destruct err as [e |]; [| now apply Base].
    destruct (errors_Is e ErrClosed); [| now apply Base].
    clear Base.
    assert (Loop : forall n b (w1 w' : World B) r c',
               reconnectLoop (PublishJSON fuel payload) n b c w1
               = Returned (r, c') w' ->
               same_config c c' /\
               exists tr,
                 trace w' = trace w1 ++ tr /\ closes tr = [] /\
                 logs tr = [] /\
                 (List.length (dials tr)
                  <= n + 5 * List.length (sends tr))%nat).
    { clear - IH. induction n as [| n IHn]; intros b w1 w' r c' E;
        cbn [reconnectLoop] in E.
      - injection E as <- <- <-. split; [apply same_config_refl |].
        exists []. rewrite app_nil_r. cbn. repeat split; lia.
      - unfold sleep in E. cbv beta iota in E.
        match type of E with
        | context [connect c ?ws] =>
          destruct (connect_trace c ws)
            as (tr1 & T1 & _ & D1 & _ & S1 & C1 & L1);
          destruct (connect c ws) as [[[e |] c1] w2] eqn:Ec
        end; cbn [snd trace] in T1.
        + apply connect_failure_keeps in Ec. subst c1.
          apply IHn in E. destruct E as (K & tr & T & C & L & N).
          split; [exact K |].
          exists (EvSleep b :: tr1 ++ tr).
          split; [rewrite T, T1, <- !app_assoc; reflexivity |].
          cbn [closes logs dials sends]. autorewrite with trace.
          rewrite C, C1, L, L1, D1, S1. cbn. repeat split; lia.
        + pose proof (connect_same_config _ _ _ _ _ Ec) as K1.
          apply IH in E. destruct E as (K & tr & T & C & L & N).
          split; [exact (same_config_trans _ _ _ K1 K) |].
          exists (EvSleep b :: tr1 ++ tr).
          split; [rewrite T, T1, <- !app_assoc; reflexivity |].
          cbn [closes logs dials sends]. autorewrite with trace.
          rewrite C, C1, L, L1, D1, S1. cbn. repeat split; lia. }
    apply Loop in E. destruct E as (K & tr & T & C & L & N).
    split; [exact K |].
    eexists. split; [rewrite T, T1, <- app_assoc; reflexivity |].
    cbn [app closes logs dials sends]. cbn [List.length].
    repeat split; auto; lia.
  - destruct (PublishJSON_unencodable fuel payload err c c' w w' r Hm E)
      as (_ & -> & ->).
    split; [apply same_config_refl |].
    exists []. rewrite app_nil_r. cbn. repeat split; lia.
Qed.

Lemma reconnectLoop_ext
    (retry1 retry2 : Client -> World B -> outcome B (option error * Client))
    (n : nat) :
  (forall c w, retry1 c w <> OutOfFuel -> retry2 c w = retry1 c w) ->
  forall (b : Z) (c : Client) (w : World B),
    reconnectLoop retry1 n b c w <> OutOfFuel ->
    reconnectLoop retry2 n b c w = reconnectLoop retry1 n b c w.
Proof.
  intros Hext. induction n as [| n IH]; intros b c w Hne;
    cbn [reconnectLoop] in *; [reflexivity |].
  unfold sleep in *. cbv beta iota in *.
  destruct (connect c _) as [[[e |] c1] w2]; auto.
Qed.

Lemma PublishJSON_S (payload : Payload) (fuel : nat) (c : Client)
    (w : World B) :
  PublishJSON (S fuel) payload c w
  = match json_Marshal payload with
    | Err err => Returned (Some err, c) w
    | Ok body =>
      match channel c with
      | None => Panicked w
      | Some ch =>
        let (err, w1) := transmit ch c body w in
        match err with
        | Some e =>
          if errors_Is e ErrClosed
          then reconnectLoop (PublishJSON fuel payload) 5 time_Second c w1
          else Returned (err, c) w1
        | None => Returned (err, c) w1
        end
      end
    end.
Proof. reflexivity. Qed.

Lemma PublishJSON_one_more (payload : Payload) (fuel : nat) :
  forall (c : Client) (w : World B),
    PublishJSON fuel payload c w <> OutOfFuel ->
    PublishJSON (S fuel) payload c w = PublishJSON fuel payload c w.
Proof.
  induction fuel as [| fuel IH]; intros c w Hne;
    [now elim Hne |].
  rewrite (PublishJSON_S payload (S fuel)).
  rewrite (PublishJSON_S payload fuel) in Hne |- *.
  destruct (json_Marshal payload) as [body | err]; [| reflexivity].
  destruct (channel c) as [ch |]; [| reflexivity].
  destruct (transmit ch c body w) as [[e |] w1]; [| reflexivity].
  destruct (errors_Is e ErrClosed); [| reflexivity].
  apply reconnectLoop_ext; [| exact Hne].
  intros c0 w0. apply IH.
Qed.

(** The bound on re-entries only cuts runs off: a call that has ended
    within some bound ends the same way within every larger bound. *)
Lemma PublishJSON_outcome_is_stable (payload : Payload) (fuel k : nat)
    (c : Client) (w : World B) :
  PublishJSON fuel payload c w <> OutOfFuel ->
  PublishJSON (fuel + k) payload c w = PublishJSON fuel payload c w.
Proof.
  intros Hne. induction k as [| k IH].
  - now rewrite Nat.add_0_r.
  - rewrite Nat.add_succ_r, PublishJSON_one_more; [exact IH |].
    now rewrite IH.
Qed.

End PublishProperties.
Section SessionProperties.
Context {B : Type} `{Broker B} {Payload : Type} `{Json Payload}.

Lemma Close_events (c : Client) (w : World B) :
  exists tr,
    Close c w = (tt, c, {| broker := broker (snd (Close c w));
                           trace := trace w ++ tr |}) /\
    Forall (session_event c) tr.
Proof.
  destruct (Close_run c w) as (r1 & r2 & w' & E & T).
  rewrite E. cbn [snd]. eexists. split.
  - rewrite <- T. now destruct w'.
  - destruct (channel c), (conn c); repeat constructor.
Qed.

Lemma runOp_events (fuel : nat) (o : op Payload) (c c' : Client)
    (w w' : World B) :
  runOp fuel o c w = Returned c' w' ->
  same_config c c' /\
  exists tr, trace w' = trace w ++ tr /\ Forall (session_event c) tr.
Proof.
  destruct o as [p | p | |]; cbn [runOp].
  - destruct (PublishJSON fuel p c w) as [[r c1] w1 | |] eqn:E;
      try discriminate.
    intros E'. injection E' as <- <-.
    destruct (json_Marshal p) as [body | err] eqn:Hm.
    + destruct (PublishJSON_run p body Hm fuel c c1 w w1 r E)
        as (K & tr & T & F & _).
      split; [exact K |]. exists tr. split; [exact T |].
      eapply Forall_impl; [| exact F].
      intros ev. apply publish_is_session_event.
    + destruct (PublishJSON_unencodable fuel p err c c1 w w1 r Hm E)
        as (_ & -> & ->).
      split; [apply same_config_refl |].
      exists []. now rewrite app_nil_r.
  - unfold reconnectWithBackoff.
    destruct (reconnectLoop_cases (PublishJSON fuel p) 5 time_Second c w)
      as [(w1 & tr & -> & T & F) | (c1 & w1 & tr & -> & T & F & _ & K & _)].
    + intros E'. injection E' as <- <-.
      split; [apply same_config_refl |]. exists tr. split; [exact T |].
      eapply Forall_impl; [| exact F].
      intros ev Hev.
      exact (publish_is_session_event c []
               ev (reconnect_is_publish_event c [] ev Hev)).
    + destruct (PublishJSON fuel p c1 w1) as [[r c2] w2 | |] eqn:E;
        try discriminate.
      intros E'. injection E' as <- <-.
      assert (F' : Forall (session_event c) tr).
      { eapply Forall_impl; [| exact F].
        intros ev Hev.
        exact (publish_is_session_event c []
                 ev (reconnect_is_publish_event c [] ev Hev)). }
      destruct (json_Marshal p) as [body | err] eqn:Hm.
      * destruct (PublishJSON_run p body Hm fuel c1 c2 w1 w2 r E)
          as (K2 & tr2 & T2 & F2 & _).
        split; [exact (same_config_trans _ _ _ K K2) |].
        exists (tr ++ tr2). split; [now rewrite T2, T, app_assoc |].
        apply Forall_app. split; [exact F' |].
        eapply Forall_impl; [| exact F2].
        intros ev Hev. apply (session_event_config c c1); [exact K |].
        now apply publish_is_session_event with (body := body).
      * destruct (PublishJSON_unencodable fuel p err c1 c2 w1 w2 r Hm E)
          as (_ & -> & ->).
        split; [exact K |]. exists tr. now split.
  - destruct (connect_events c w) as (tr & T & F).
    destruct (connect c w) as [[r c1] w1] eqn:E. cbn [snd] in T.
    intros E'. injection E' as <- <-.
    split; [exact (connect_same_config _ _ _ _ _ E) |].
    exists tr. split; [exact T |].
    eapply Forall_impl; [| exact F].
    intros ev Hev.
    exact (publish_is_session_event c []
             ev (reconnect_is_publish_event c [] ev Hev)).
  - destruct (Close_events c w) as (tr & E & F). rewrite E.
    intros E'. injection E' as <- <-.
    split; [apply same_config_refl |]. exists tr.
    split; [reflexivity | exact F].
Qed.

Lemma runOps_events (fuel : nat) (ops : list (op Payload)) :
  forall (c c' : Client) (w w' : World B),
    runOps fuel ops c w = Returned c' w' ->
    same_config c c' /\
    exists tr, trace w' = trace w ++ tr /\ Forall (session_event c) tr.
Proof.
  induction ops as [| o ops IH]; intros c c' w w' E; cbn [runOps] in E.
  - injection E as <- <-. split; [apply same_config_refl |].
    exists []. now rewrite app_nil_r.
  - destruct (runOp fuel o c w) as [c1 w1 | |] eqn:E1; try discriminate.
    apply runOp_events in E1. destruct E1 as (K1 & tr1 & T1 & F1).
    apply IH in E. destruct E as (K2 & tr2 & T2 & F2).
    split; [exact (same_config_trans _ _ _ K1 K2) |].
    exists (tr1 ++ tr2). split; [now rewrite T2, T1, app_assoc |].
    apply Forall_app. split; [exact F1 |].
    eapply Forall_impl; [| exact F2].
    intros ev. now apply session_event_config.
Qed.

(** X5: through any sequence of [PublishJSON], [reconnectWithBackoff],
    [connect] and [Close] a client keeps the URI, the queue and the TLS
    configuration it was built with; every queue it declares and every
    message it transmits goes to that queue, and it never logs. *)
Theorem session_keeps_its_endpoint (fuel : nat) (ops : list (op Payload))
    (c c' : Client) (w w' : World B) :
  runOps fuel ops c w = Returned c' w' ->
  uri c' = uri c /\ queue c' = queue c /\ tlsCfg c' = tlsCfg c /\
  exists tr,
    trace w' = trace w ++ tr /\
    Forall (session_event c) tr /\
    logs tr = [].
Proof.
  intros E. apply runOps_events in E.
  destruct E as ((Ku & Kq & Kt) & tr & T & F).
  repeat split; auto. exists tr. repeat split; auto.
  clear - F. induction F as [| ev tr Hev _ IH]; [reflexivity |].
  destruct ev; cbn in Hev |- *; try contradiction; auto.
Qed.

(** X6: every dial of a session, reconnects included, goes to the
    client's URI and through the entry point its configuration selects
    ([amqp.DialTLS] with the bound configuration when there is one,
    [amqp.Dial] otherwise), so all its dials are over one transport,
    the one the library takes from that URI: TLS for the scheme amqps,
    plaintext for amqp, whatever configuration is bound. *)
Theorem session_never_changes_transport (fuel : nat)
    (ops : list (op Payload)) (c c' : Client) (w w' : World B) :
  runOps fuel ops c w = Returned c' w' ->
  exists tr,
    trace w' = trace w ++ tr /\
    Forall (eq (uri c)) (dials tr) /\
    Forall (eq (uri.transport_of (uri c))) (wire tr) /\
    match tlsCfg c with
    | Some cfg =>
      Dial_calls tr = [] /\ Forall (eq (uri c, cfg)) (DialTLS_calls tr)
    | None =>
      DialTLS_calls tr = [] /\ Forall (eq (uri c)) (Dial_calls tr)
    end.
Proof.
  intros E. apply runOps_events in E. destruct E as (_ & tr & T & F).
  exists tr. split; [exact T |].
  assert (Hd : Forall (eq (uri c)) (dials tr)).
  { clear - F. induction F as [| ev tr Hev _ IH]; [constructor |].
    destruct ev; cbn in Hev; cbn [dials]; auto;
      destruct Hev as (_ & ->); now constructor. }
  split; [exact Hd |]. split.
  - rewrite wire_dials. clear - Hd.
    induction Hd as [| u us <- _ IH]; cbn [map]; now constructor.
  - clear - F. induction F as [| ev tr Hev _ IH].
    + destruct (tlsCfg c); split; constructor.
    + destruct ev; cbn in Hev; cbn [Dial_calls DialTLS_calls]; auto.
      * destruct Hev as (Ht & ->). rewrite Ht in *.
        destruct IH as (IH1 & IH2). split; [exact IH1 | now constructor].
      * destruct Hev as (Ht & ->). rewrite Ht in *.
        destruct IH as (IH1 & IH2). split; [exact IH1 | now constructor].
Qed.

End SessionProperties.

Section ConnectProperties.
Context {B : Type} `{Broker B}.

Lemma errors_Is_wrapped (prefix : string) (cause target : error) :
  errors_Is cause target = true ->
  errors_Is (Errorf_w prefix cause) target = true.
Proof.
  intros Hc. cbn [errors_Is].
  now destruct (error_eq_dec (Errorf_w prefix cause) target).
Qed.

(** X7: the error of a failed [connect] wraps the error the library
    gave at the step that failed (the answer of the last call made), so
    [errors.Is] sees through it; its text starts with the name of that
    step. *)
Theorem connect_error_wraps_its_cause (c c' : Client) (w w' : World B)
    (err : error) :
  connect c w = (Some err, c', w') ->
  exists prefix cause tr last,
    err = Errorf_w prefix cause /\
    trace w' = trace w ++ tr ++ [last] /\
    ((prefix = "dial failed" /\
      (last = EvDial (uri c) (Err cause) \/
       exists cfg, last = EvDialTLS (uri c) cfg (Err cause))) \/
     (prefix = "channel failed" /\
      exists cn, last = EvChannel cn (Err cause)) \/
     (prefix = "queue declare failed" /\
      exists ch, last = EvQueueDeclare ch (queue c) true false false false
                          None (Some cause))) /\
    forall target,
      errors_Is cause target = true -> errors_Is err target = true.
Proof.
  intros E. pose proof (connect_runs c w) as R. rewrite E in R.
  inversion R; subst;
    repeat match goal with
           | D : dial_call _ _ _ _ _ |- _ => inversion D; subst; clear D
           end;
    cbn [trace].
  1,2: exists "dial failed", e, []; eexists;
    (split; [reflexivity |]); (split; [reflexivity |]);
    (split; [left; split; eauto |]);
    intros target; apply errors_Is_wrapped.
  1,2: exists "channel failed", e; eexists [_]; eexists;
    (split; [reflexivity |]); (split; [reflexivity |]);
    (split; [right; left; split; eauto |]);
    intros target; apply errors_Is_wrapped.
  1,2: exists "queue declare failed", e; eexists [_; _]; eexists;
    (split; [reflexivity |]); (split; [reflexivity |]);
    (split; [right; right; split; eauto |]);
    intros target; apply errors_Is_wrapped.
Qed.

(** X8: after a [connect] that succeeds, [Close] releases the channel
    and then the connection that this [connect] opened, and nothing
    else: the handles the client held before are not released by either
    call. *)
Theorem connect_then_Close_releases_the_new_handles (c c' : Client)
    (w w' : World B) :
  connect c w = (None, c', w') ->
  exists cn ch r1 r2 w'' tr,
    conn c' = Some cn /\ channel c' = Some ch /\
    trace w' = trace w ++ tr /\
    In (EvChannel cn (Ok ch)) tr /\ closes tr = [] /\
    Close c' w' = (tt, c', w'') /\
    trace w'' = trace w' ++ [EvChannelClose ch r1; EvConnectionClose cn r2].
Proof.
  intros E. pose proof (connect_runs c w) as R. rewrite E in R.
  inversion R; subst;
    repeat match goal with
           | D : dial_call _ _ _ _ _ |- _ => inversion D; subst; clear D
           end.
  all: match goal with
       | |- context [Close ?c1 ?w1] =>
         destruct (Close_run c1 w1) as (r1 & r2 & w'' & EC & TC)
       end;
    cbn [channel conn] in TC;
    exists cn, ch, r1, r2, w''; eexists;
    (split; [reflexivity |]); (split; [reflexivity |]);
    (split; [reflexivity |]);
    (split; [cbn; auto |]); (split; [reflexivity |]);
    split; [exact EC | exact TC].
Qed.

End ConnectProperties.

Section TLSProperties.

(** What a call of [LoadTLSConfig] without error has given. *)
Lemma LoadTLSConfig_success (fs : Files) (useTLS useMTLS : bool)
    (cfg : option tls_Config) :
  LoadTLSConfig fs useTLS useMTLS = (cfg, None) ->
  match cfg with
  | Some c => useTLS = true /\ MinVersion c = VersionTLS12
  | None => useTLS = false
  end.
Proof.
  unfold LoadTLSConfig. destruct useTLS; cbn [negb].
  - destruct useMTLS;
      [destruct (tls_LoadX509KeyPair _ _ _); [| discriminate] |];
      (destruct (os_ReadFile fs _); [| discriminate]);
      destruct (AppendCertsFromPEM fs _ _) as [pool [|]]; cbn [negb];
      intros E; try discriminate; injection E as <-; now split.
  - intros E. now injection E as <-.
Qed.

(** X9: [LoadTLSConfig] answers (nil, nil) exactly when security is
    disabled; when it is enabled it answers a configuration or an error,
    never both and never neither. *)
Theorem LoadTLSConfig_result_shape (fs : Files) (useTLS useMTLS : bool) :
  match LoadTLSConfig fs useTLS useMTLS with
  | (None, None) => useTLS = false
  | (Some cfg, None) =>
    useTLS = true /\ MinVersion cfg = VersionTLS12 /\ RootCAs cfg <> None
  | (None, Some _) => useTLS = true
  | (Some _, Some _) => False
  end.
Proof.
  unfold LoadTLSConfig. destruct useTLS; cbn [negb]; [| reflexivity].
  destruct useMTLS;
    [destruct (tls_LoadX509KeyPair _ _ _); [| reflexivity] |];
    (destruct (os_ReadFile fs _); [| reflexivity]);
    destruct (AppendCertsFromPEM fs _ _) as [pool [|]]; cbn [negb];
    repeat split; discriminate.
Qed.

(** X10: without mutual authentication the client key pair is not
    looked at: two sets of files that agree on the CA certificate give
    the same answer, and a configuration built this way has no client
    certificate. *)
Theorem LoadTLSConfig_without_mtls_ignores_key_pair (fs fs' : Files)
    (useTLS : bool) :
  os_ReadFile fs "/etc/certs/ca.crt" = os_ReadFile fs' "/etc/certs/ca.crt" ->
  (forall pem, AppendCertsFromPEM fs x509_NewCertPool pem
               = AppendCertsFromPEM fs' x509_NewCertPool pem) ->
  LoadTLSConfig fs useTLS false = LoadTLSConfig fs' useTLS false
  /\ forall cfg, fst (LoadTLSConfig fs useTLS false) = Some cfg ->
                 Certificates cfg = [].
Proof.
  intros Hca Hpem. unfold LoadTLSConfig.
  destruct useTLS; cbn [negb]; [| split; [reflexivity | discriminate]].
  rewrite <- Hca.
  destruct (os_ReadFile fs _) as [pem | e];
    [| split; [reflexivity | discriminate]].
  rewrite <- Hpem.
  destruct (AppendCertsFromPEM fs _ _) as [pool [|]]; cbn [negb];
    (split; [reflexivity |]); cbn [fst]; [| discriminate].
  intros cfg E. now injection E as <-.
Qed.

End TLSProperties.
(** * The sensor, the environment and the loop of [main] *)

Section StringFacts.
Import strings.

Lemma append_empty_r (s : string) : (s ++ "")%string = s.
Proof. induction s as [| c s IH]; cbn; [reflexivity | now rewrite IH]. Qed.

Lemma append_assoc (a b c : string) :
  ((a ++ b) ++ c)%string = (a ++ (b ++ c))%string.
Proof. induction a as [| x a IH]; cbn; [reflexivity | now rewrite IH]. Qed.

Lemma length_append (a b : string) :
  String.length (a ++ b) = (String.length a + String.length b)%nat.
Proof. induction a as [| x a IH]; cbn; [reflexivity | now rewrite IH]. Qed.

Lemma prefix_cons (a b : ascii) (p s : string) :
  String.prefix (String a p) (String b s)
  = if ascii_dec a b then String.prefix p s else false.
Proof. reflexivity. Qed.

Lemma prefix_empty (s : string) : String.prefix "" s = true.
Proof. now destruct s. Qed.

Lemma prefix_append (p t : string) : String.prefix p (p ++ t) = true.
Proof.
  induction p as [| a p IH]; cbn [append]; [apply prefix_empty |].
  rewrite prefix_cons. now destruct (ascii_dec a a).
Qed.

Lemma prefix_split (p : string) :
  forall s, String.prefix p s = true -> exists t, s = (p ++ t)%string.
Proof.
  induction p as [| a p IH]; intros s Hp.
  - now exists s.
  - destruct s as [| b s]; [discriminate |].
    rewrite prefix_cons in Hp. destruct (ascii_dec a b) as [<- |];
      [| discriminate].
    destruct (IH s Hp) as (t & ->). now exists t.
Qed.

Lemma Contains_cons (c : ascii) (s sub : string) :
  Contains (String c s) sub = false ->
  String.prefix sub (String c s) = false /\ Contains s sub = false.
Proof.
  cbn [Contains]. destruct (String.prefix sub (String c s)); [discriminate |].
  now split.
Qed.

Lemma splitFrom_skip (sep : string) (x : string) :
  forall cur t,
    splitFrom sep (String.length x) cur (x ++ t) = splitFrom sep 0 cur t.
Proof.
  induction x as [| a x IH]; intros cur t; cbn; [reflexivity | apply IH].
Qed.

Lemma splitFrom_not_nil (sep : string) (s : string) :
  forall k cur, splitFrom sep k cur s <> [].
Proof.
  induction s as [| a s IH]; intros k cur; cbn [splitFrom];
    [discriminate |].
  destruct k; [| apply IH].
  destruct (String.prefix sep (String a s)); [discriminate | apply IH].
Qed.

Lemma concat_cons (sep x : string) (l : list string) :
  l <> [] -> concat sep (x :: l) = (x ++ sep ++ concat sep l)%string.
Proof. destruct l; [congruence | reflexivity]. Qed.

(** A string that does not hold the separator is one piece. *)
Lemma splitFrom_one_piece (sep : string) (s : string) :
  forall cur,
    Contains s sep = false ->
    splitFrom sep 0 cur s = [(cur ++ s)%string].
Proof.
  induction s as [| a s IH]; intros cur Hc.
  - cbn. now rewrite append_empty_r.
  - apply Contains_cons in Hc. destruct Hc as (Hp & Hc).
    cbn [splitFrom]. rewrite Hp, (IH _ Hc), append_assoc. reflexivity.
Qed.

(** Joining the pieces with the separator gives the string back. *)
Lemma concat_splitFrom (sep : string) :
  sep <> "" ->
  forall (n : nat) (s cur : string),
    (String.length s <= n)%nat ->
    concat sep (splitFrom sep 0 cur s) = (cur ++ s)%string.
Proof.
  intros Hsep. induction n as [| n IH]; intros s cur Hn.
  - destruct s; [| cbn in Hn; lia]. cbn. now rewrite append_empty_r.
  - destruct s as [| a s]; [cbn; now rewrite append_empty_r |].
    cbn [splitFrom].
    destruct (String.prefix sep (String a s)) eqn:Hp.
    + destruct (prefix_split _ _ Hp) as (t & Et).
      destruct sep as [| b sep]; [congruence |].
      cbn [append] in Et. injection Et as <- ->.
      replace (String.length (String a sep) - 1)%nat
        with (String.length sep) by (cbn [String.length]; lia).
      rewrite splitFrom_skip.
      rewrite concat_cons by apply splitFrom_not_nil.
      rewrite IH; [reflexivity |].
      cbn [String.length] in Hn. rewrite length_append in Hn. lia.
    + rewrite IH by (cbn [String.length] in Hn; lia).
      now rewrite append_assoc.
Qed.

Lemma prefix_app_r (p : string) :
  forall x y, String.prefix p x = true -> String.prefix p (x ++ y) = true.
Proof.
  induction p as [| a p IH]; intros x y Hp; [apply prefix_empty |].
  destruct x as [| b x]; [discriminate |].
  cbn [append]. rewrite prefix_cons in Hp |- *.
  destruct (ascii_dec a b); [now apply IH | discriminate].
Qed.

(** A string that holds the separator has a first occurrence of it. *)
Lemma Contains_first (sep : string) :
  sep <> "" ->
  forall s,
    Contains s sep = true ->
    exists a b, s = (a ++ sep ++ b)%string /\ Contains a sep = false.
Proof.
  intros Hsep. induction s as [| c s IH]; intros Hc.
  - cbn in Hc. destruct sep; [congruence | discriminate].
  - cbn [Contains] in Hc.
    destruct (String.prefix sep (String c s)) eqn:Hp.
    + apply prefix_split in Hp. destruct Hp as (b & ->).
      exists "", b. split; [reflexivity |].
      destruct sep; [congruence | reflexivity].
    + destruct (IH Hc) as (a & b & -> & Ha).
      exists (String c a), b. split; [reflexivity |].
      cbn [Contains]. rewrite Ha.
      destruct (String.prefix sep (String c a)) eqn:Hp'; [| reflexivity].
      apply (prefix_app_r _ _ (sep ++ b)) in Hp'. cbn [append] in Hp'.
      congruence.
Qed.

(** The first piece holds no separator, for a separator whose first
    occurrence ends the first piece. *)
Lemma first_piece_clean (sep : string) :
  sep <> "" ->
  (forall pre cur t,
      Contains pre sep = false ->
      splitFrom sep 0 cur (pre ++ sep ++ t)
      = (cur ++ pre)%string :: splitFrom sep 0 "" t) ->
  forall s p t rest,
    s = (p ++ t)%string ->
    splitFrom sep 0 "" s = p :: rest ->
    Contains p sep = false.
Proof.
  intros Hsep Hfirst s p t rest -> Hs.
  destruct (Contains p sep) eqn:Hc; [| reflexivity].
  destruct (Contains_first sep Hsep p Hc) as (a & b & -> & Ha).
  rewrite !append_assoc, (Hfirst a "" _ Ha) in Hs. cbn [append] in Hs.
  injection Hs as Hs _.
  apply (f_equal String.length) in Hs. rewrite !length_append in Hs.
  destruct sep; [congruence | cbn [String.length] in Hs; lia].
Qed.

End StringFacts.
Section SplitFacts.
Import strings.

(** The first piece ends at the first separator: a one-byte separator. *)
Lemma splitFrom_first_byte (a : ascii) (pre : string) :
  forall cur t,
    Contains pre (String a "") = false ->
    splitFrom (String a "") 0 cur (pre ++ String a t)
    = (cur ++ pre)%string :: splitFrom (String a "") 0 "" t.
Proof.
  induction pre as [| c pre IH]; intros cur t Hc.
  - cbn [append splitFrom]. rewrite prefix_cons, prefix_empty.
    destruct (ascii_dec a a); [| congruence].
    cbn [String.length Nat.sub]. now rewrite append_empty_r.
  - apply Contains_cons in Hc. destruct Hc as (Hp & Hc).
    rewrite prefix_cons, prefix_empty in Hp.
    cbn [append splitFrom]. rewrite prefix_cons, prefix_empty.
    destruct (ascii_dec a c); [discriminate |].
    rewrite (IH _ _ Hc), append_assoc. reflexivity.
Qed.

(** The same for the separator ["t="]. *)
Lemma splitFrom_first_t_eq (pre : string) :
  forall cur t,
    Contains pre "t=" = false ->
    splitFrom "t=" 0 cur (pre ++ String "t" (String "=" t))
    = (cur ++ pre)%string :: splitFrom "t=" 0 "" t.
Proof.
  induction pre as [| c pre IH]; intros cur t Hc.
  - cbn [append splitFrom]. rewrite !prefix_cons, prefix_empty. cbn.
    destruct t; now rewrite append_empty_r.
  - apply Contains_cons in Hc. destruct Hc as (Hp & Hc).
    cbn [append splitFrom].
    assert (Hno : String.prefix "t="
                    (String c (pre ++ String "t" (String "=" t))) = false).
    { rewrite prefix_cons in Hp |- *.
      destruct (ascii_dec "t" c); [| reflexivity].
      destruct pre as [| d pre]; [reflexivity |].
      cbn [append]. now rewrite prefix_cons, prefix_empty in Hp |- *. }
    rewrite Hno, (IH _ _ Hc), append_assoc. reflexivity.
Qed.

Lemma Contains_byte_append (a : ascii) (x y : string) :
  Contains x (String a "") = false ->
  Contains y (String a "") = false ->
  Contains (x ++ y) (String a "") = false.
Proof.
  intros Hx Hy. induction x as [| c x IH]; [exact Hy |].
  apply Contains_cons in Hx. destruct Hx as (Hp & Hx).
  cbn [append Contains]. rewrite prefix_cons, prefix_empty in Hp |- *.
  destruct (ascii_dec a c); [discriminate | now apply IH].
Qed.

Lemma Contains_byte_prefix (a : ascii) (x y : string) :
  Contains (x ++ y) (String a "") = false ->
  Contains x (String a "") = false.
Proof.
  induction x as [| c x IH]; intros Hc; [reflexivity |].
  cbn [append] in Hc. apply Contains_cons in Hc. destruct Hc as (Hp & Hc).
  cbn [Contains]. rewrite prefix_cons, prefix_empty in Hp |- *.
  destruct (ascii_dec a c); [discriminate | now apply IH].
Qed.

End SplitFacts.

Section AtoiFacts.
Import strings strconv.

(** A string of digits holds no string that starts with another byte. *)
Lemma scanDigits_Contains (bits : Z) (a : ascii) (sub : string) (s : string) :
  digit a = None ->
  forall acc n,
    scanDigits bits acc s = Ok n ->
    Contains s (String a sub) = false.
Proof.
  intros Ha. induction s as [| c s IH]; intros acc n E; [reflexivity |].
  cbn [scanDigits] in E. destruct (digit c) as [d |] eqn:Hd; [| discriminate].
  destruct (_ >? _); [discriminate |].
  cbn [Contains]. rewrite prefix_cons.
  destruct (ascii_dec a c) as [-> |]; [congruence | eauto].
Qed.

Lemma Atoi_Contains (intSize : Z) (a : ascii) (sub : string) (s : string)
    (n : Z) :
  digit a = None -> a <> "-"%char -> a <> "+"%char ->
  Atoi intSize s = Ok n ->
  Contains s (String a sub) = false.
Proof.
  intros Ha Hm Hp E. unfold Atoi in E.
  destruct s as [| c s]; [discriminate |].
  assert (Hscan : forall digits,
             match digits with
             | "" => Err (NumError "Atoi" ErrSyntax)
             | String _ _ =>
               match scanDigits intSize 0 digits with
               | Ok un =>
                 if negb false && (un >=? 2 ^ (intSize - 1))
                 then Err (NumError "Atoi" ErrRange)
                 else if false && (un >? 2 ^ (intSize - 1))
                      then Err (NumError "Atoi" ErrRange)
                      else Ok un
               | Err e => Err (NumError "Atoi" e)
               end
             end = Ok n \/
             match digits with
             | "" => Err (NumError "Atoi" ErrSyntax)
             | String _ _ =>
               match scanDigits intSize 0 digits with
               | Ok un =>
                 if negb true && (un >=? 2 ^ (intSize - 1))
                 then Err (NumError "Atoi" ErrRange)
                 else if true && (un >? 2 ^ (intSize - 1))
                      then Err (NumError "Atoi" ErrRange)
                      else Ok (- un)
               | Err e => Err (NumError "Atoi" e)
               end
             end = Ok n ->
             Contains digits (String a sub) = false).
  { intros digits [E' | E']; destruct digits as [| x digits];
      try discriminate;
      destruct (scanDigits intSize 0 (String x digits)) as [un |] eqn:Es;
      try discriminate;
      exact (scanDigits_Contains intSize a sub _ Ha 0 un Es). }
  destruct (Ascii.eqb_spec c "-") as [-> | Hc1].
  - cbn [Contains]. rewrite prefix_cons.
    destruct (ascii_dec a "-"); [contradiction |]. apply Hscan. now right.
  - destruct (Ascii.eqb_spec c "+") as [-> | Hc2].
    + cbn [Contains]. rewrite prefix_cons.
      destruct (ascii_dec a "+"); [contradiction |]. apply Hscan. now left.
    + apply Hscan. now left.
Qed.

Lemma scanDigits_decimal (bits : Z) (d : Decimal.uint) :
  forall acc : nat,
    Z.of_nat (Nat.of_uint_acc d acc) <= 2 ^ bits - 1 ->
    scanDigits bits (Z.of_nat acc) (NilEmpty.string_of_uint d)
    = Ok (Z.of_nat (Nat.of_uint_acc d acc)).
Proof.
  assert (Hmono : forall d acc, (acc <= Nat.of_uint_acc d acc)%nat).
  { intros d0 acc. rewrite DecimalNat.Unsigned.of_uint_acc_spec.
    pose proof (Nat.pow_nonzero 10 (DecimalNat.Unsigned.usize d0)) as Hp.
    nia. }
  induction d as [| d IH | d IH | d IH | d IH | d IH | d IH | d IH | d IH
                  | d IH | d IH];
    intros acc Hfit; [reflexivity | ..];
    cbn [NilEmpty.string_of_uint scanDigits Nat.of_uint_acc] in *;
    match goal with
    | |- context [digit ?c] =>
      let v := eval vm_compute in (digit c) in
      change (digit c) with v; cbv beta iota
    end;
    match goal with
    | Hfit : Z.of_nat (Nat.of_uint_acc d ?acc') <= _ |- _ =>
      pose proof (Hmono d acc') as Hm;
      pose proof (Nat.tail_mul_spec 10 acc) as Ht;
      replace (Z.of_nat acc * 10 + _) with (Z.of_nat acc')
        by (rewrite ?Ht; lia);
      destruct (Z.gtb_spec (Z.of_nat acc') (2 ^ bits - 1)); [lia |];
      now apply IH
    end.
Qed.

(** [strconv.Atoi] reads back the decimal notation of every integer an
    [int] can hold, negative ones included. *)
Lemma Atoi_reads_decimal_notation (intSize n : Z) :
  0 < intSize ->
  - 2 ^ (intSize - 1) <= n <= 2 ^ (intSize - 1) - 1 ->
  Atoi intSize (Itoa n) = Ok n.
Proof.
  intros Hsz Hn.
  assert (Hpow : 2 ^ intSize = 2 * 2 ^ (intSize - 1)).
  { rewrite <- Z.pow_succ_r by lia. f_equal. lia. }
  assert (Hpos : 0 < 2 ^ (intSize - 1)) by (apply Z.pow_pos_nonneg; lia).
  set (m := Z.abs_nat n).
  assert (Hscan : scanDigits intSize 0
                    (NilEmpty.string_of_uint (Nat.to_uint m))
                  = Ok (Z.of_nat m)).
  { pose proof (scanDigits_decimal intSize (Nat.to_uint m) 0) as K.
    change (Nat.of_uint_acc (Nat.to_uint m) 0)
      with (Nat.of_uint (Nat.to_uint m)) in K.
    rewrite DecimalNat.Unsigned.of_to in K. apply K. subst m. lia. }
  assert (Hhead : exists c s,
             NilEmpty.string_of_uint (Nat.to_uint m) = String c s /\
             digit c <> None).
  { pose proof (DecimalNat.Unsigned.to_of (Nat.to_uint m)) as K.
    rewrite DecimalNat.Unsigned.of_to in K.
    destruct (Nat.to_uint m) as [| d | d | d | d | d | d | d | d | d | d];
      [ vm_compute in K; discriminate | ..];
      cbn [NilEmpty.string_of_uint]; do 2 eexists;
      (split; [reflexivity | vm_compute; discriminate]). }
  destruct Hhead as (c & s & Es & Hc).
  unfold Atoi, Itoa. fold m.
  destruct (Z.ltb_spec n 0) as [Hneg | Hnn].
  - cbn [Ascii.eqb Bool.eqb]. rewrite Es in Hscan |- *. rewrite Hscan.
    cbn [negb andb].
    destruct (Z.gtb_spec (Z.of_nat m) (2 ^ (intSize - 1))); [subst m; lia |].
    f_equal. subst m. lia.
  - rewrite Es in Hscan |- *.
    destruct (Ascii.eqb_spec c "-") as [-> | _];
      [now elim Hc |].
    destruct (Ascii.eqb_spec c "+") as [-> | _];
      [now elim Hc |].
    rewrite Hscan. cbn [negb andb].
    destruct (Z.geb_spec (Z.of_nat m) (2 ^ (intSize - 1))); [subst m; lia |].
    f_equal. subst m. lia.
Qed.

End AtoiFacts.
Section SensorProperties.
Import strings strconv sensor.
Context {F : Type} `{Float64 F}.
Variable intSize : Z.

(** How such a file splits into lines, and its second line at "t=". *)
Lemma sensor_file_splits (l0 pre num more : string) :
  more = "" \/ String.prefix newline more = true ->
  Contains l0 newline = false ->
  Contains pre newline = false ->
  Contains pre "t=" = false ->
  Contains num newline = false ->
  Contains num "t=" = false ->
  (exists rest,
     Split (l0 ++ newline ++ pre ++ "t=" ++ num ++ more) newline
     = l0 :: (pre ++ "t=" ++ num)%string :: rest) /\
  Split (pre ++ "t=" ++ num) "t=" = [pre; num].
Proof.
  intros Hmore Hl0 Hpre1 Hpre2 Hn1 Hn2.
  set (l1 := (pre ++ "t=" ++ num)%string).
  assert (Hl1 : Contains l1 newline = false).
  { subst l1. apply Contains_byte_append; [exact Hpre1 |].
    apply (Contains_byte_append _ "t="); [reflexivity | exact Hn1]. }
  split.
  - unfold Split, newline in *.
    change (l0 ++ String "010" "" ++ pre ++ "t=" ++ num ++ more)%string
      with (l0 ++ String "010" (pre ++ "t=" ++ num ++ more))%string.
    rewrite (splitFrom_first_byte _ l0 "" _ Hl0). cbn [append].
    replace (pre ++ String "t" (String "=" (num ++ more)))%string
      with (l1 ++ more)%string
      by (subst l1; now rewrite append_assoc).
    destruct Hmore as [-> | Hm].
    + exists []. rewrite append_empty_r.
      now rewrite (splitFrom_one_piece _ l1 "" Hl1).
    + apply prefix_split in Hm. destruct Hm as (t & ->).
      cbn [append].
      rewrite (splitFrom_first_byte _ l1 "" _ Hl1). cbn [append].
      eexists. reflexivity.
  - unfold Split. subst l1.
    change (pre ++ "t=" ++ num)%string
      with (pre ++ String "t" (String "=" num))%string.
    rewrite (splitFrom_first_t_eq pre "" num Hpre2). cbn [append].
    now rewrite (splitFrom_one_piece "t=" num "" Hn2).
Qed.

(** X11: a temperature written in decimal after "t=" on the second
    line, in thousandths of a degree and possibly negative, is read back
    as that number divided by 1000, for every number an [int] holds. *)
Theorem readTemperature_reads_back_decimal (h : os.Host)
    (path l0 pre more : string) (n : Z) :
  os.ReadFile h path
  = Ok (l0 ++ newline ++ pre ++ "t=" ++ Itoa n ++ more)%string ->
  more = "" \/ String.prefix newline more = true ->
  Contains l0 newline = false ->
  Contains l0 "YES" = true ->
  Contains pre newline = false ->
  Contains pre "t=" = false ->
  0 < intSize ->
  - 2 ^ (intSize - 1) <= n <= 2 ^ (intSize - 1) - 1 ->
  readTemperature intSize h path = Ok (fdiv (float64 n) f1000).
Proof.
  intros Hfile Hmore Hl0 Hyes Hpre1 Hpre2 Hsz Hn.
  pose proof (Atoi_reads_decimal_notation intSize n Hsz Hn) as Hnum.
  assert (Hn1 : Contains (Itoa n) newline = false)
    by (apply (Atoi_Contains intSize _ "" (Itoa n) n);
        [reflexivity | | | exact Hnum]; discriminate).
  assert (Hn2 : Contains (Itoa n) "t=" = false)
    by (apply (Atoi_Contains intSize _ "=" (Itoa n) n);
        [reflexivity | | | exact Hnum]; discriminate).
  destruct (sensor_file_splits l0 pre (Itoa n) more
              Hmore Hl0 Hpre1 Hpre2 Hn1 Hn2) as ((rest & Hlines) & Hparts).
  unfold readTemperature. rewrite Hfile, Hlines.
  cbn [List.length nth Nat.ltb Nat.leb orb]. rewrite Hyes. cbn [negb].
  rewrite Hparts. cbn [List.length Nat.eqb negb nth]. now rewrite Hnum.
Qed.

(** X12: a sensor file whose first line holds "YES" and whose second
    line is some text, then "t=", then an integer [Atoi] accepts (the
    text without "t="), is read as that integer divided by 1000; what
    follows the second line does not matter. *)
Theorem readTemperature_reads_the_second_line (h : os.Host)
    (path l0 pre num more : string) (n : Z) :
  os.ReadFile h path
  = Ok (l0 ++ newline ++ pre ++ "t=" ++ num ++ more)%string ->
  more = "" \/ String.prefix newline more = true ->
  Contains l0 newline = false ->
  Contains l0 "YES" = true ->
  Contains pre newline = false ->
  Contains pre "t=" = false ->
  Atoi intSize num = Ok n ->
  readTemperature intSize h path = Ok (fdiv (float64 n) f1000).
Proof.
  intros Hfile Hmore Hl0 Hyes Hpre1 Hpre2 Hnum.
  assert (Hn1 : Contains num newline = false)
    by (apply (Atoi_Contains intSize _ "" num n);
        [reflexivity | | | exact Hnum]; discriminate).
  assert (Hn2 : Contains num "t=" = false)
    by (apply (Atoi_Contains intSize _ "=" num n);
        [reflexivity | | | exact Hnum]; discriminate).
  destruct (sensor_file_splits l0 pre num more
              Hmore Hl0 Hpre1 Hpre2 Hn1 Hn2) as ((rest & Hlines) & Hparts).
  unfold readTemperature. rewrite Hfile, Hlines.
  cbn [List.length nth Nat.ltb Nat.leb orb]. rewrite Hyes. cbn [negb].
  rewrite Hparts. cbn [List.length Nat.eqb negb nth]. now rewrite Hnum.
Qed.

(** X13: whenever [readTemperature] gives a value, the file was read
    and is made of a first line (up to the first newline) that holds
    "YES", a newline, and a second line that is a text without "t=",
    then "t=", then an integer [Atoi] accepts, followed by nothing or by
    a newline and anything; the value is that integer divided by 1000.
    So a file of one line, a first line without "YES", a second line
    without "t=" or with more than one, and a text after "t=" that is no
    integer, all give an error. *)
Theorem readTemperature_value_comes_from_the_file (h : os.Host)
    (path : string) (v : F) :
  readTemperature intSize h path = Ok v ->
  exists l0 pre num more n,
    os.ReadFile h path
    = Ok (l0 ++ newline ++ pre ++ "t=" ++ num ++ more)%string /\
    (more = "" \/ String.prefix newline more = true) /\
    Contains l0 newline = false /\
    Contains l0 "YES" = true /\
    Contains pre newline = false /\
    Contains pre "t=" = false /\
    Atoi intSize num = Ok n /\
    v = fdiv (float64 n) f1000.
Proof.
  unfold readTemperature.
  destruct (os.ReadFile h path) as [data | e]; [| discriminate].
  assert (Hjoin : concat newline (Split data newline) = data).
  { unfold Split.
    rewrite (concat_splitFrom newline) with (n := String.length data);
      [reflexivity | discriminate | lia]. }
  destruct (Split data newline) as [| l0 [| l1 rest]] eqn:Hlines;
    cbn [List.length Nat.ltb Nat.leb orb]; try discriminate.
  cbn [nth].
  destruct (Contains l0 "YES") eqn:Hyes; cbn [negb]; [| discriminate].
  assert (Hjoin2 : concat "t=" (Split l1 "t=") = l1).
  { unfold Split.
    rewrite (concat_splitFrom "t=") with (n := String.length l1);
      [reflexivity | discriminate | lia]. }
  destruct (Split l1 "t=") as [| pre [| num [| x parts]]] eqn:Hparts;
    cbn [List.length Nat.eqb negb]; try discriminate.
  cbn [nth].
  destruct (Atoi intSize num) as [n |] eqn:Hnum; [| discriminate].
  intros E. injection E as <-.
  set (more := match rest with
               | [] => ""
               | _ :: _ => (newline ++ concat newline rest)%string
               end).
  assert (Htail : concat newline (l1 :: rest) = (l1 ++ more)%string).
  { subst more. destruct rest; [now rewrite append_empty_r | reflexivity]. }
  assert (Hdata : data = (l0 ++ newline ++ l1 ++ more)%string).
  { rewrite <- Hjoin, <- Htail. reflexivity. }
  assert (Hl1 : l1 = (pre ++ "t=" ++ num)%string).
  { rewrite <- Hjoin2. reflexivity. }
  assert (Hbyte : forall p cur t,
             Contains p newline = false ->
             splitFrom newline 0 cur (p ++ newline ++ t)
             = (cur ++ p)%string :: splitFrom newline 0 "" t)
    by (intros p cur t; apply splitFrom_first_byte).
  assert (Hl0 : Contains l0 newline = false).
  { apply (first_piece_clean newline) with (s := data)
      (t := (newline ++ l1 ++ more)%string) (rest := l1 :: rest);
      [discriminate | exact Hbyte | exact Hdata | exact Hlines]. }
  assert (Hcl1 : Contains l1 newline = false).
  { apply (first_piece_clean newline) with (s := (l1 ++ more)%string)
      (t := more) (rest := rest);
      [discriminate | exact Hbyte | reflexivity |].
    unfold Split in Hlines. rewrite Hdata, (Hbyte l0 "" _ Hl0) in Hlines.
    now injection Hlines. }
  assert (Hpre2 : Contains pre "t=" = false).
  { apply (first_piece_clean "t=") with (s := l1)
      (t := ("t=" ++ num)%string) (rest := [num]);
      [discriminate | | exact Hl1 | exact Hparts].
    intros p cur t. apply splitFrom_first_t_eq. }
  assert (Hpre1 : Contains pre newline = false).
  { rewrite Hl1 in Hcl1. exact (Contains_byte_prefix _ _ _ Hcl1). }
  exists l0, pre, num, more, n.
  repeat split; auto.
  - f_equal. rewrite Hdata, Hl1. now rewrite !append_assoc.
  - subst more. destruct rest; [now left | right]. apply prefix_append.
Qed.

End SensorProperties.

Section HostProperties.
Import strings strconv sensor.

(** X14: [findSensorPath] answers the path of the first entry of the
    devices directory, in the order [os.ReadDir] lists them, whose name
    starts with "28-"; it fails with "no DS18B20 found" exactly when no
    entry does. *)
Theorem findSensorPath_takes_the_first_match (h : os.Host)
    (entries : list string) :
  os.ReadDir h "/sys/bus/w1/devices/" = Ok entries ->
  match findSensorPath h with
  | Ok p =>
    exists before e after,
      entries = before ++ e :: after /\
      Forall (fun x => HasPrefix x "28-" = false) before /\
      HasPrefix e "28-" = true /\
      p = os.filepath_Join h ["/sys/bus/w1/devices/"; e; "w1_slave"]
  | Err err =>
    err = ErrorNew "no DS18B20 found" /\
    Forall (fun x => HasPrefix x "28-" = false) entries
  end.
Proof.
  intros Hdir. unfold findSensorPath. rewrite Hdir. clear Hdir.
  induction entries as [| e es IH].
  - split; [reflexivity | constructor].
  - destruct (HasPrefix e "28-") eqn:He.
    + exists [], e, es. repeat split; auto.
    + match type of IH with
      | match ?r with _ => _ end => destruct r as [p | err]
      end.
      * destruct IH as (before & e' & after & -> & Hb & He' & ->).
        exists (e :: before), e', after. repeat split; auto.
      * destruct IH as (-> & Hall). split; [reflexivity | now constructor].
Qed.

(** X15: [getEnvBool] answers true exactly when the variable is set to
    one of "1", "t", "T", "TRUE", "true", "True", or when the default is
    true and the variable is unset or set to anything that is not one of
    "0", "f", "F", "FALSE", "false", "False": an unreadable value is
    taken for the default without a word. *)
Theorem getEnvBool_falls_back_to_the_default (h : os.Host) (key : string)
    (defaultVal : bool) :
  getEnvBool h key defaultVal = true <->
  (exists v, os.LookupEnv h key = Some v /\
             In v ["1"; "t"; "T"; "TRUE"; "true"; "True"]) \/
  (defaultVal = true /\
   forall v, os.LookupEnv h key = Some v ->
             ~ In v ["0"; "f"; "F"; "FALSE"; "false"; "False"]).
Proof.
  unfold getEnvBool, ParseBool.
  destruct (os.LookupEnv h key) as [val |].
  - destruct (existsb (String.eqb val)
                ["1"; "t"; "T"; "TRUE"; "true"; "True"]) eqn:Ht.
    + split; [intros _; left | reflexivity].
      apply existsb_exists in Ht. destruct Ht as (x & Hin & Hx).
      apply String.eqb_eq in Hx. subst x. now exists val.
    + assert (Hnt : ~ In val ["1"; "t"; "T"; "TRUE"; "true"; "True"]).
      { intros Hin. enough (Hc : true = false) by discriminate.
        rewrite <- Ht. symmetry. apply existsb_exists. exists val.
        split; [exact Hin | apply String.eqb_refl]. }
      destruct (existsb (String.eqb val)
                  ["0"; "f"; "F"; "FALSE"; "false"; "False"]) eqn:Hf.
      * apply existsb_exists in Hf. destruct Hf as (x & Hin & Hx).
        apply String.eqb_eq in Hx. subst x.
        split; [discriminate |].
        intros [(v & E & Hv) | (_ & K)].
        -- injection E as <-. contradiction.
        -- now elim (K val eq_refl).
      * split.
        -- intros ->. right. split; [reflexivity |].
           intros v E Hin. injection E as <-.
           enough (Hc : true = false) by discriminate.
           rewrite <- Hf. symmetry. apply existsb_exists. exists val.
           split; [exact Hin | apply String.eqb_refl].
        -- intros [(v & E & Hv) | (-> & _)]; [| reflexivity].
           injection E as <-. contradiction.
  - split.
    + intros ->. right. split; [reflexivity | discriminate].
    + intros [(v & E & _) | (-> & _)]; [discriminate | reflexivity].
Qed.

End HostProperties.
Section LoopProperties.
Import program.
Context {B : Type} `{Broker B} {F : Type} `{Float64 F}
        `{Json (TemperatureMessage F)}.
Variable intSize : Z.

Lemma last_cons_default {A} (l : list A) :
  forall x d : A, last (x :: l) d = last l x.
Proof.
  induction l as [| y l IH]; intros x d; [reflexivity |].
  change (last (x :: y :: l) d) with (last (y :: l) d).
  now rewrite !IH.
Qed.

Lemma onTick_counts (fuel : nat) (hostname sensorPath now : string)
    (h : os.Host) (p p' : Process F) (w w' : World B) :
  onTick intSize fuel hostname sensorPath now h p w = Returned p' w' ->
  map name (registry p') = map name (registry p) /\
  healthy p' = healthy p /\
  match sensor.readTemperature intSize h sensorPath with
  | Ok temp =>
    msgCount (metrics p') = S (msgCount (metrics p)) /\
    tempGauge (metrics p') = temp
  | Err err =>
    p' = p /\ broker w' = broker w /\
    trace w' = trace w ++ [EvLogPrintf "Failed to read sensor: %v" None err]
  end.
Proof.
  unfold onTick.
  destruct (sensor.readTemperature intSize h sensorPath) as [temp | err].
  - destruct (publishAll fuel _ (registry p) w) as [cs w1 | |] eqn:E;
      try discriminate.
    intros E'. injection E' as <- <-. cbn.
    repeat split. exact (publishAll_names _ _ _ _ _ _ E).
  - cbn. intros E'. injection E' as <- <-. now repeat split.
Qed.


(** X17: when the loop returns or waits, the counter [msgCount] has
    grown by the number of ticks at which the sensor was read, whether
    or not any message was accepted by a broker; the gauge holds the
    last reading; the registry has the same names in the same order; and
    [healthy] was turned off exactly if a signal came. *)
Theorem loop_counts_readings_not_deliveries (fuel : nat)
    (hostname sensorPath : string) (inputs : list input)
    (p p' : Process F) (w w' : World B) :
  mainLoop intSize fuel hostname sensorPath inputs p w = Returned p' w' ->
  msgCount (metrics p')
  = (msgCount (metrics p)
     + List.length (readings intSize sensorPath inputs))%nat /\
  tempGauge (metrics p')
  = last (readings intSize sensorPath inputs) (tempGauge (metrics p)) /\
  map name (registry p') = map name (registry p) /\
  healthy p' = healthy p && negb (signalled inputs).
Proof.
  revert p w. induction inputs as [| [now h |] rest IH]; intros p w E;
    cbn [mainLoop] in E.
  - injection E as <- <-. cbn. rewrite Nat.add_0_r, andb_true_r.
    now repeat split.
  - destruct (onTick intSize fuel hostname sensorPath now h p w)
      as [p1 w1 | |] eqn:E1; try discriminate.
    apply onTick_counts in E1. destruct E1 as (N1 & Hh1 & R1).
    apply IH in E. destruct E as (C & G & N & Hh).
    cbn [readings signalled existsb orb].
    fold (signalled rest).
    destruct (sensor.readTemperature intSize h sensorPath) as [temp | err].
    + destruct R1 as (C1 & G1).
      rewrite C, C1, G, G1, N, N1, Hh, Hh1. cbn [List.length].
      split; [lia |]. split; [| now split].
      symmetry. apply last_cons_default.
    + destruct R1 as (-> & _). now repeat split.
  - unfold onSignal, bind, ret in E.
    destruct (closeAll (registry p) w) as [cs w1] eqn:Ec.
    injection E as <- <-. cbn. rewrite Nat.add_0_r, andb_false_r.
    repeat split.
    clear - Ec. revert cs w w1 Ec.
    induction (registry p) as [| c rest IH]; intros cs w w1 Ec;
      cbn [closeAll] in Ec; unfold bind, ret in Ec.
    + now injection Ec as <- <-.
    + destruct (Close (client c) w) as [r w2].
      destruct (closeAll rest w2) as [rest' w3] eqn:E3.
      injection Ec as <- <-. cbn. f_equal. eauto.
Qed.

Lemma closeAll_run (clients : list clientRef) :
  forall w : World B,
  exists rs w',
    closeAll clients w = (clients, w') /\
    List.length rs = List.length clients /\
    trace w' = trace w ++
      flat_map (fun cr => closeEvents (client (fst cr)) (snd cr))
               (combine clients rs).
Proof.
  induction clients as [| c rest IH]; intros w; cbn [closeAll];
    unfold bind, ret.
  - exists [], w. rewrite app_nil_r. now repeat split.
  - destruct (Close_run (client c) w) as (r1 & r2 & w1 & E & T).
    rewrite E. cbn [snd].
    destruct (IH w1) as (rs & w' & E' & L & T'). rewrite E'.
    exists ((r1, r2) :: rs), w'. split; [| split].
    + now destruct c.
    + cbn. now rewrite L.
    + rewrite T', T. cbn [combine flat_map fst snd].
      unfold closeEvents at 2. cbn [fst snd].
      now rewrite <- !app_assoc.
Qed.

(** X18: at a signal the loop turns [healthy] off and calls [Close] on
    every registered client in registration order, so the releases are,
    client by client, the channel and then the connection; it returns
    whatever the releases answer, leaves registry and metrics as they
    were, and never looks at the inputs that follow. *)
Theorem signal_closes_every_client_in_order (fuel : nat)
    (hostname sensorPath : string) (later : list input) (p : Process F)
    (w : World B) :
  exists rs w',
    mainLoop intSize fuel hostname sensorPath (Signal :: later) p w
    = Returned {| registry := registry p; metrics := metrics p;
                  healthy := false |} w' /\
    List.length rs = List.length (registry p) /\
    trace w' = trace w ++
      flat_map (fun cr => closeEvents (client (fst cr)) (snd cr))
               (combine (registry p) rs).
Proof.
  cbn [mainLoop]. unfold onSignal, bind, ret.
  destruct (closeAll_run (registry p) w) as (rs & w' & E & L & T).
  rewrite E. exists rs, w'. now repeat split.
Qed.

End LoopProperties.
Section BootProperties.
Import program.
Context {B : Type} `{Broker B} {F : Type} `{Float64 F}.

Lemma register_transport (nm warning u q : string)
    (tls : option tls_Config) (cs : list clientRef) (w : World B) :
  exists tr,
    trace (snd (register nm warning u q tls cs w)) = trace w ++ tr /\
    match tls with
    | Some cfg => Dial_calls tr = []
    | None => DialTLS_calls tr = []
    end.
Proof.
  unfold register. destruct (String.eqb u "").
  - exists []. cbn. rewrite app_nil_r. now destruct tls.
  - unfold NewClient, bind, ret, logPrintf.
    destruct (connect_events
                {| conn := None; channel := None; queue := q; uri := u;
                   tlsCfg := tls |} w) as (tr & T & Fe).
    assert (Hd : match tls with
                 | Some cfg => Dial_calls tr = []
                 | None => DialTLS_calls tr = []
                 end).
    { clear - Fe. induction Fe as [| ev tr Hev _ IH].
      - now destruct tls.
      - destruct ev; cbn in Hev; cbn [Dial_calls DialTLS_calls]; auto;
          destruct Hev as (Ht & _); rewrite Ht in *; auto. }
    destruct (connect _ w) as [[[e |] c1] w1]; cbn [snd trace] in *.
    + exists (tr ++ [EvLogPrintf warning None e]).
      split; [now rewrite T, app_assoc |].
      destruct tls; autorewrite with trace; rewrite Hd; reflexivity.
    + exists tr. now split.
Qed.

Lemma endpoint_step_registers (nm warning u q : string)
    (tls : option tls_Config) (cs cs' : list clientRef) (w w' : World B)
    (P : clientRef -> Prop) :
  endpoint_step nm warning u q tls cs w cs' w' ->
  Forall P cs ->
  (forall cl,
      u <> "" -> uri cl = u -> queue cl = q -> tlsCfg cl = tls ->
      channel cl <> None -> conn cl <> None ->
      P {| name := nm; client := cl |}) ->
  Forall P cs'.
Proof.
  intros [Hu | cl w1 Hu E | e w1 Hu E] Hcs HP; auto.
  apply NewClient_channel in E. destruct E as (? & ? & ? & ? & ?).
  apply Forall_app. split; [exact Hcs |]. constructor; auto.
Qed.

Lemma start_run (l r q : string) (tls : option tls_Config) (w : World B) :
  exists clients w' tr,
    start l r q tls w
    = (match clients with
       | [] => Fatal "No RabbitMQ connections available"
       | _ :: _ => Started clients
       end, w') /\
    trace w' = trace w ++ tr /\
    match tls with
    | Some cfg => Dial_calls tr = []
    | None => DialTLS_calls tr = []
    end /\
    dials tr = filter nonempty [l; r] /\
    Forall (fun c =>
              (name c = "local" /\ uri (client c) = l \/
               name c = "remote" /\ uri (client c) = r) /\
              uri (client c) <> "" /\
              queue (client c) = q /\ tlsCfg (client c) = tls /\
              channel (client c) <> None /\ conn (client c) <> None)
           clients.
Proof.
  pose proof (register_step "local" "Local RabbitMQ connection failed: %v"
                l q tls [] w) as S1.
  destruct (register_transport "local"
              "Local RabbitMQ connection failed: %v" l q tls [] w)
    as (ta & Ta & Da).
  destruct (register "local" _ l q tls [] w) as [cs1 w1] eqn:E1.
  pose proof (register_step "remote"
                "Remote RabbitMQ connection failed: %v" r q tls cs1 w1)
    as S2.
  destruct (register_transport "remote"
              "Remote RabbitMQ connection failed: %v" r q tls cs1 w1)
    as (tb & Tb & Db).
  destruct (register "remote" _ r q tls cs1 w1) as [clients w'] eqn:E2.
  cbn [fst snd] in *.
  assert (Hda : dials ta = filter nonempty [l]).
  { destruct (endpoint_step_trace _ _ _ _ _ _ _ _ _ S1)
      as (t1 & _ & T1 & _ & D1 & _).
    rewrite Ta in T1. apply app_inv_head in T1. now subst t1. }
  assert (Hdb : dials tb = filter nonempty [r]).
  { destruct (endpoint_step_trace _ _ _ _ _ _ _ _ _ S2)
      as (t2 & _ & T2 & _ & D2 & _).
    rewrite Tb in T2. apply app_inv_head in T2. now subst t2. }
  exists clients, w', (ta ++ tb).
  split; [| split; [| split; [| split]]].
  - unfold start, registerClients, bind, ret. rewrite E1, E2.
    now destruct clients.
  - now rewrite Tb, Ta, app_assoc.
  - destruct tls; autorewrite with trace; now rewrite Da, Db.
  - autorewrite with trace. rewrite Hda, Hdb. cbn [filter].
    destruct (nonempty l), (nonempty r); reflexivity.
  - eapply endpoint_step_registers; [exact S2 | |].
    + eapply endpoint_step_registers; [exact S1 | constructor |].
      intros cl Hu Hur Hqu Htl Hc Hn. cbn [client name].
      rewrite Hur. repeat split; auto.
    + intros cl Hu Hur Hqu Htl Hc Hn. cbn [client name].
      rewrite Hur. repeat split; auto.
Qed.

(** X19: when the log file cannot be set up, [main] stops with "Failed
    to set up log file"; else when no sensor is found, with "Sensor not
    found"; else when the TLS settings cannot be loaded, with "TLS config
    error"; each time with the error that caused it and before it has
    called the broker at all.  No other [log.Fatalf] ends the start. *)
Theorem boot_fails_before_any_call (h : os.Host) (files : Files)
    (w : World B) :
  (forall err,
      fst (utils.SetupFileLogger h "log/ms-temp-sensor.log") = Some err ->
      boot (F := F) h files w
      = (BootFatal "Failed to set up log file: %v" (Some err), w))
  /\ (fst (utils.SetupFileLogger h "log/ms-temp-sensor.log") = None ->
      forall err,
        sensor.findSensorPath h = Err err ->
        boot (F := F) h files w
        = (BootFatal "Sensor not found: %v" (Some err), w))
  /\ (fst (utils.SetupFileLogger h "log/ms-temp-sensor.log") = None ->
      forall p err,
        sensor.findSensorPath h = Ok p ->
        snd (LoadTLSConfig files
               (sensor.getEnvBool h "RABBITMQ_USE_TLS" false)
               (sensor.getEnvBool h "RABBITMQ_USE_MTLS" false)) = Some err ->
        boot (F := F) h files w
        = (BootFatal "TLS config error: %v" (Some err), w))
  /\ (forall format err w',
        boot (F := F) h files w = (BootFatal format (Some err), w') ->
        w' = w /\
        In format ["Failed to set up log file: %v"; "Sensor not found: %v";
                   "TLS config error: %v"]).
Proof.
  unfold boot. split; [| split; [| split]].
  - intros err ->. reflexivity.
  - intros -> err ->. reflexivity.
  - intros -> p err -> Ht.
    destruct (LoadTLSConfig files _ _) as [cfg [e |]]; cbn [snd] in Ht;
      [| discriminate].
    now injection Ht as ->.
  - intros format err w'.
    destruct (fst (utils.SetupFileLogger h _)) as [e0 |];
      [intros E; injection E as <- <- <-; cbn; auto |].
    destruct (sensor.findSensorPath h) as [sp | e1];
      [| intros E; injection E as <- <- <-; cbn; auto].
    destruct (LoadTLSConfig files _ _) as [cfg [e2 |]];
      [intros E; injection E as <- <- <-; cbn; auto |].
    unfold bind, ret.
    destruct (start_run (os.Getenv h "RABBITMQ_LOCAL_URI")
                (os.Getenv h "RABBITMQ_REMOTE_URI")
                (if String.eqb (os.Getenv h "RABBITMQ_QUEUE") ""
                 then "temp" else os.Getenv h "RABBITMQ_QUEUE")
                cfg w) as (cs & w1 & tr & -> & _).
    destruct cs; discriminate.
Qed.

(** X20: at the start, RABBITMQ_USE_TLS decides which entry point is
    called and what the clients are bound to: read as true, every dial
    is a call of [amqp.DialTLS] and every client has a configuration
    with the minimum version TLS 1.2; read as false, every dial is a
    call of [amqp.Dial] and no client has a configuration, whatever
    RABBITMQ_USE_MTLS says and whatever the certificate files hold.  The
    transport is not decided by it: the URIs dialled are the non-empty
    ones of RABBITMQ_LOCAL_URI and RABBITMQ_REMOTE_URI, in that order,
    each over the transport the library takes from the URI, so an amqp
    URI is dialled in plaintext even when RABBITMQ_USE_TLS is true. *)
Theorem boot_transport_follows_the_URI (h : os.Host) (files : Files)
    (w w' : World B) (hostname sensorPath : string) (p : Process F) :
  boot h files w = (Booted hostname sensorPath p, w') ->
  exists tr,
    trace w' = trace w ++ tr /\
    dials tr = filter nonempty [os.Getenv h "RABBITMQ_LOCAL_URI";
                                os.Getenv h "RABBITMQ_REMOTE_URI"] /\
    wire tr = map uri.transport_of
                (filter nonempty [os.Getenv h "RABBITMQ_LOCAL_URI";
                                  os.Getenv h "RABBITMQ_REMOTE_URI"]) /\
    if sensor.getEnvBool h "RABBITMQ_USE_TLS" false
    then Dial_calls tr = [] /\
         Forall (fun c => exists cfg,
                     tlsCfg (client c) = Some cfg /\
                     MinVersion cfg = VersionTLS12)
                (registry p)
    else DialTLS_calls tr = [] /\
         Forall (fun c => tlsCfg (client c) = None) (registry p).
Proof.
  unfold boot.
  destruct (fst (utils.SetupFileLogger h _)); [discriminate |].
  destruct (sensor.findSensorPath h) as [sp |]; [| discriminate].
  destruct (LoadTLSConfig files _ _) as [cfg [e |]] eqn:Et; [discriminate |].
  apply LoadTLSConfig_success in Et. rename Et into Shape.
  unfold bind, ret.
  destruct (start_run (os.Getenv h "RABBITMQ_LOCAL_URI")
              (os.Getenv h "RABBITMQ_REMOTE_URI")
              (if String.eqb (os.Getenv h "RABBITMQ_QUEUE") ""
               then "temp" else os.Getenv h "RABBITMQ_QUEUE")
              cfg w) as (cs & w1 & tr & -> & T & D & Hd & Fc).
  destruct cs as [| c cs]; [discriminate |].
  intros E. injection E as <- <- <- <-. cbn [registry].
  exists tr. split; [exact T |]. split; [exact Hd |].
  split; [now rewrite wire_dials, Hd |].
  destruct cfg as [cfg |].
  - destruct Shape as (-> & Hmin). split; [exact D |].
    eapply Forall_impl; [| exact Fc]. cbn.
    intros c0 (_ & _ & _ & Ht & _). now exists cfg.
  - rewrite Shape. split; [exact D |].
    eapply Forall_impl; [| exact Fc]. cbn. tauto.
Qed.

(** X21: when [main] enters its loop, at least one client is
    registered; each registered client is connected, is named "local" or
    "remote" after the variable its URI came from, and publishes to the
    queue named by RABBITMQ_QUEUE, or to "temp" when that is unset or
    empty; the counter starts at 0 and [healthy] is on. *)
Theorem boot_registers_the_configured_endpoints (h : os.Host)
    (files : Files) (w w' : World B) (hostname sensorPath : string)
    (p : Process F) :
  boot h files w = (Booted hostname sensorPath p, w') ->
  hostname = fst (os.Hostname h) /\
  sensor.findSensorPath h = Ok sensorPath /\
  registry p <> [] /\
  healthy p = true /\ msgCount (metrics p) = 0%nat /\
  Forall (fun c =>
            (name c = "local" /\
             uri (client c) = os.Getenv h "RABBITMQ_LOCAL_URI" \/
             name c = "remote" /\
             uri (client c) = os.Getenv h "RABBITMQ_REMOTE_URI") /\
            uri (client c) <> "" /\
            queue (client c)
            = (if String.eqb (os.Getenv h "RABBITMQ_QUEUE") ""
               then "temp" else os.Getenv h "RABBITMQ_QUEUE") /\
            queue (client c) <> "" /\
            channel (client c) <> None /\ conn (client c) <> None)
         (registry p).
Proof.
  unfold boot.
  destruct (fst (utils.SetupFileLogger h _)); [discriminate |].
  destruct (sensor.findSensorPath h) as [sp |]; [| discriminate].
  destruct (LoadTLSConfig files _ _) as [cfg [e |]]; [discriminate |].
  unfold bind, ret.
  destruct (String.eqb_spec (os.Getenv h "RABBITMQ_QUEUE") "") as [Hq | Hq].
  - destruct (start_run (os.Getenv h "RABBITMQ_LOCAL_URI")
                (os.Getenv h "RABBITMQ_REMOTE_URI") "temp" cfg w)
      as (cs & w1 & tr & -> & _ & _ & _ & Fc).
    destruct cs as [| c cs]; [discriminate |].
    intros E. injection E as <- <- <- <-. cbn [registry metrics healthy].
    repeat split; try discriminate.
    eapply Forall_impl; [| exact Fc]. cbn.
    intros c0 (? & ? & Hq0 & ? & ? & ?). rewrite Hq0.
    repeat split; auto. discriminate.
  - destruct (start_run (os.Getenv h "RABBITMQ_LOCAL_URI")
                (os.Getenv h "RABBITMQ_REMOTE_URI")
                (os.Getenv h "RABBITMQ_QUEUE") cfg w)
      as (cs & w1 & tr & -> & _ & _ & _ & Fc).
    destruct cs as [| c cs]; [discriminate |].
    intros E. injection E as <- <- <- <-. cbn [registry metrics healthy].
    repeat split; try discriminate.
    eapply Forall_impl; [| exact Fc]. cbn.
    intros c0 (? & ? & Hq0 & ? & ? & ?). rewrite Hq0.
    repeat split; auto.
Qed.

End BootProperties.
(** * Concrete runs for the further properties *)

Section FurtherWitnesses.
Import Scenario Bench program.

(** The run is computed, and kept as a hypothesis. *)
Ltac run_as E :=
  match goal with
  | |- ?A /\ _ =>
    assert (E : A) by (vm_compute; reflexivity); split; [exact E |]
  end.

Lemma X1_witness :
  exists c' w',
    PublishJSON 2 reading session closed_then_back = Returned (None, c') w' /\
    exists tr ch b,
      trace w' = trace closed_then_back ++ tr /\
      accepted tr = [(ch, b, None)].
Proof.
  do 2 eexists. run_as E.
  pose proof E as K. apply PublishJSON_accepted_at_most_once in K.
  destruct K as (tr & T & tr0 & ch & b & _ & _ & _ & A).
  exists tr, ch, b. split; [exact T | exact A].
Defined.

Lemma X2_witness :
  exists c' w' r,
    json_Marshal reading = Ok body /\
    PublishJSON 2 reading session closed_then_back = Returned (r, c') w' /\
    exists tr,
      trace w' = trace closed_then_back ++ tr /\
      Forall (fun s => snd (fst s) = body) (sends tr).
Proof.
  do 3 eexists. split; [reflexivity |]. run_as E.
  pose proof E as K.
  eapply PublishJSON_only_sends_the_payload with (body := body) in K;
    [| reflexivity].
  destruct K as (tr & T & _ & S).
  exists tr. split; [exact T | exact S].
Defined.

Lemma X3_witness :
  exists c' w' r,
    PublishJSON 2 reading session closed_then_back = Returned (r, c') w' /\
    uri c' = uri session /\
    exists tr,
      trace w' = trace closed_then_back ++ tr /\ closes tr = [].
Proof.
  do 3 eexists. run_as E.
  pose proof E as K. apply PublishJSON_releases_nothing in K.
  destruct K as ((Ku & _) & tr & T & C & _).
  split; [exact Ku |]. exists tr. split; [exact T | exact C].
Defined.

Lemma X5_witness :
  exists c' w',
    runOps 2 [OpPublishJSON reading; OpClose; OpConnect] session
      closed_then_back = Returned c' w' /\
    uri c' = uri session /\ queue c' = queue session /\
    tlsCfg c' = tlsCfg session.
Proof.
  do 2 eexists. run_as E.
  pose proof E as K. apply session_keeps_its_endpoint in K.
  destruct K as (Ku & Kq & Kt & _).
  repeat split; assumption.
Defined.

Lemma X6_witness :
  exists c' w',
    runOps 2 [OpPublishJSON reading; OpClose; OpConnect] session
      closed_then_back = Returned c' w' /\
    exists tr,
      trace w' = trace closed_then_back ++ tr /\
      Forall (eq (Some uri.Plaintext)) (wire tr) /\
      DialTLS_calls tr = [] /\ Forall (eq "amqp://local") (Dial_calls tr).
Proof.
  do 2 eexists. run_as E.
  pose proof E as K. apply session_never_changes_transport in K.
  destruct K as (tr & T & _ & Hw & K).
  exists tr. split; [exact T |]. split; [exact Hw | exact K].
Defined.

Lemma X7_witness :
  exists c' w',
    connect session closed_and_down
    = (Some (Errorf_w "dial failed" refused), c', w') /\
    errors_Is (Errorf_w "dial failed" refused) refused = true.
Proof.
  do 2 eexists. run_as E.
  pose proof E as K. apply connect_error_wraps_its_cause in K.
  destruct K as (prefix & cause & tr & last & E' & _ & _ & K).
  injection E' as <- <-. apply K. reflexivity.
Defined.

Lemma X8_witness :
  exists c' w',
    connect session up = (None, c', w') /\
    exists cn ch r1 r2 w'',
      Close c' w' = (tt, c', w'') /\
      trace w'' = trace w' ++ [EvChannelClose ch r1; EvConnectionClose cn r2].
Proof.
  do 2 eexists. run_as E.
  pose proof E as K. apply connect_then_Close_releases_the_new_handles in K.
  destruct K as (cn & ch & r1 & r2 & w'' & tr & _ & _ & _ & _ & _ & E' & T).
  exists cn, ch, r1, r2, w''. split; [exact E' | exact T].
Defined.

Lemma X10_witness :
  os_ReadFile files_ok "/etc/certs/ca.crt"
  = os_ReadFile files_no_client_cert "/etc/certs/ca.crt" /\
  (forall pem,
      AppendCertsFromPEM files_ok x509_NewCertPool pem
      = AppendCertsFromPEM files_no_client_cert x509_NewCertPool pem) /\
  LoadTLSConfig files_ok true false
  = LoadTLSConfig files_no_client_cert true false.
Proof.
  split; [reflexivity |]. split; [reflexivity |].
  exact (proj1 (LoadTLSConfig_without_mtls_ignores_key_pair files_ok
                  files_no_client_cert true eq_refl (fun _ => eq_refl))).
Defined.

Lemma X11_witness :
  os.ReadFile pi_outdoors sensor_path
  = Ok (crc_line ++ strings.newline ++ data_prefix ++ "t="
        ++ strconv.Itoa (-1250) ++ strings.newline)%string /\
  strings.Contains crc_line "YES" = true /\
  0 < 64 /\ - 2 ^ (64 - 1) <= -1250 <= 2 ^ (64 - 1) - 1 /\
  sensor.readTemperature 64 pi_outdoors sensor_path
  = Ok (fdiv (float64 (-1250)) f1000).
Proof.
  assert (H1 : 0 < 64) by lia.
  assert (H2 : - 2 ^ (64 - 1) <= -1250 <= 2 ^ (64 - 1) - 1) by lia.
  split; [reflexivity |]. split; [reflexivity |].
  split; [exact H1 |]. split; [exact H2 |].
  apply (readTemperature_reads_back_decimal 64 pi_outdoors sensor_path
           crc_line data_prefix strings.newline (-1250));
    try reflexivity; [right; reflexivity | exact H2].
Defined.

Lemma X12_witness :
  os.ReadFile pi sensor_path
  = Ok (crc_line ++ strings.newline ++ data_prefix ++ "t=" ++ "22875"
        ++ strings.newline)%string /\
  strings.Contains crc_line "YES" = true /\
  strconv.Atoi 64 "22875" = Ok 22875 /\
  sensor.readTemperature 64 pi sensor_path
  = Ok (fdiv (float64 22875) f1000).
Proof.
  split; [reflexivity |]. split; [reflexivity |]. split; [reflexivity |].
  apply (readTemperature_reads_the_second_line 64 pi sensor_path crc_line
           data_prefix "22875" strings.newline 22875);
    try reflexivity.
  right. reflexivity.
Defined.

Lemma X13_witness :
  sensor.readTemperature 64 pi sensor_path = Ok (Frac 22875 1000) /\
  exists l0 pre num more n,
    os.ReadFile pi sensor_path
    = Ok (l0 ++ strings.newline ++ pre ++ "t=" ++ num ++ more)%string /\
    strings.Contains l0 strings.newline = false /\
    strings.Contains l0 "YES" = true /\
    strings.Contains pre "t=" = false /\
    strconv.Atoi 64 num = Ok n.
Proof.
  assert (E : sensor.readTemperature 64 pi sensor_path
              = Ok (Frac 22875 1000)) by (vm_compute; reflexivity).
  split; [exact E |].
  destruct (readTemperature_value_comes_from_the_file 64 pi sensor_path _ E)
    as (l0 & pre & num & more & n & Hf & _ & Hl & Hy & _ & Hp & Hn & _).
  exists l0, pre, num, more, n. repeat split; assumption.
Defined.

Lemma X14_witness :
  os.ReadDir pi "/sys/bus/w1/devices/"
  = Ok ["w1_bus_master1"; "28-0316a2795cff"] /\
  sensor.findSensorPath pi = Ok sensor_path /\
  exists before e after,
    ["w1_bus_master1"; "28-0316a2795cff"] = before ++ e :: after /\
    strings.HasPrefix e "28-" = true.
Proof.
  split; [reflexivity |]. split; [reflexivity |].
  pose proof (findSensorPath_takes_the_first_match pi
                ["w1_bus_master1"; "28-0316a2795cff"] eq_refl) as K.
  change (sensor.findSensorPath pi) with (@Ok string sensor_path) in K.
  destruct K as (before & e & after & E & _ & He & _).
  exists before, e, after. split; [exact E | exact He].
Defined.


Lemma X17_witness :
  exists p' w',
    mainLoop 64 1 "node1" sensor_path
      [Tick "2024-01-01T00:00:00Z" pi;
       Tick "2024-01-01T00:00:10Z" pi_unplugged;
       Tick "2024-01-01T00:00:20Z" pi; Signal] idle first_closed
    = Returned p' w' /\
    msgCount (metrics p') = 2%nat /\
    tempGauge (metrics p') = Frac 22875 1000 /\
    healthy p' = false /\
    List.length (accepted (trace w')) = 1%nat.
Proof.
  do 2 eexists. run_as E.
  pose proof E as K. apply loop_counts_readings_not_deliveries in K.
  destruct K as (C & G & _ & Hh).
  split; [exact C |]. split; [exact G |]. split; [exact Hh |].
  vm_compute. reflexivity.
Defined.

Lemma X19_witness :
  sensor.findSensorPath pi_unplugged = Err (ErrorNew "no DS18B20 found") /\
  boot (F := frac) pi_unplugged files_ok up
  = (BootFatal "Sensor not found: %v"
       (Some (ErrorNew "no DS18B20 found")), up).
Proof.
  assert (Hs : sensor.findSensorPath pi_unplugged
               = Err (ErrorNew "no DS18B20 found")) by reflexivity.
  split; [exact Hs |].
  destruct (boot_fails_before_any_call (F := frac) pi_unplugged files_ok up)
    as (_ & K & _).
  apply K; [reflexivity | exact Hs].
Defined.

Lemma X20_witness :
  sensor.getEnvBool pi_tls "RABBITMQ_USE_TLS" false = true /\
  exists hostname sensorPath p w',
    boot (F := frac) pi_tls files_ok up_twice
    = (Booted hostname sensorPath p, w') /\
    exists tr,
      trace w' = trace up_twice ++ tr /\
      dials tr = ["amqp://local"; "amqp://remote"] /\
      wire tr = [Some uri.Plaintext; Some uri.Plaintext] /\
      Dial_calls tr = [] /\
      Forall (fun c => exists cfg,
                  tlsCfg (client c) = Some cfg /\
                  MinVersion cfg = VersionTLS12)
             (registry p).
Proof.
  assert (Hb : sensor.getEnvBool pi_tls "RABBITMQ_USE_TLS" false = true)
    by reflexivity.
  split; [exact Hb |].
  do 4 eexists. run_as E.
  pose proof E as K. apply boot_transport_follows_the_URI in K.
  destruct K as (tr & T & Hd & Hw & K).
  rewrite Hb in K.
  exists tr. split; [exact T |]. split; [exact Hd |]. split; [exact Hw |].
  exact K.
Defined.

Lemma X21_witness :
  exists hostname sensorPath p w',
    boot (F := frac) pi files_ok up = (Booted hostname sensorPath p, w') /\
    hostname = "node1" /\ sensorPath = sensor_path /\
    registry p <> [] /\
    Forall (fun c => queue (client c) = "temp") (registry p).
Proof.
  do 4 eexists. run_as E.
  pose proof E as K. apply boot_registers_the_configured_endpoints in K.
  destruct K as (Hh & Hs & Hr & _ & _ & Fc).
  split; [exact Hh |]. split; [reflexivity |]. split; [exact Hr |].
  eapply Forall_impl; [| exact Fc]. cbn.
  intros c (_ & _ & Hq & _). exact Hq.
Defined.

End FurtherWitnesses.
